(** * Geospatial provider search of the cleaning-app backend

    A shallow embedding of the geohash helpers (utils/geohash.ts) and of the
    callable [searchServiceProviders] (functions/serviceProviderFunctions.ts),
    followed by the properties the specification states about them.

    Modelling choices.
    - A JavaScript number is an IEEE-754 binary64 value: Rocq's primitive
      [float], whose operations are specified by the Standard Library against
      [SpecFloat].  [Math.round] and [Math.sqrt] are defined on it;
      [Math.sin], [Math.cos] and [Math.atan2], which ECMAScript leaves
      implementation-approximated, are fields of the host interface [Host].
    - The npm package ngeohash is a dependency, not code of the repository:
      [encode] and [neighbors] are fields of [Host] too, and may fail.  Module
      [NGeohash] gives the package's algorithms, to run the code on inputs.
    - Request payloads and Firestore documents are dynamically typed: they are
      values of [value], with JavaScript's property access, truthiness and
      numeric coercion written out.  Arrays are not represented.
    - Firestore is an in-memory store that answers every read (store faults
      are outside the model; of the SDK's argument checks, the one on a
      document path is modelled).  Each read is recorded in a trace, so that
      "no store query" is a statement about the trace.
    - Exceptions are the [Err] outcome; every thrown value is an [Error]. *)

From Stdlib Require Import ZArith List String Ascii Bool Lia Permutation Sorted.
From Stdlib Require Import Floats.
Import ListNotations.

Set Warnings "-inexact-float,-register-all".

Open Scope string_scope.
Open Scope list_scope.
Open Scope Z_scope.

(* ================================================================== *)
(** * JavaScript numbers *)
(* ================================================================== *)

Module JsNumber.

(** [x >= y] and [x > y] on numbers; both are false when an operand is NaN. *)
Definition geb (x y : float) : bool := (y <=? x)%float.
Definition gtb (x y : float) : bool := (y <? x)%float.

(** A number is NaN exactly when it differs from itself. *)
Definition isNaN (x : float) : bool := negb (x =? x)%float.

(** [Math.PI]. *)
Definition Math_PI : float := 3.141592653589793%float.

(** [Math.sqrt]: the correctly rounded square root. *)
Definition Math_sqrt (x : float) : float := sqrt x.

(** [Math.round x]: the integer closest to [x], ties towards +Infinity; NaN,
    infinities and zeros are returned unchanged, and a result of zero keeps
    the sign of [x].  For a finite [x = (-1)^s * m * 2^e] with [e < 0] the
    integer is [floor (x + 1/2)], computed exactly in [Z]; its magnitude is
    below [2^53], so the conversion back is exact. *)
Definition Math_round (x : float) : float :=
  match Prim2SF x with
  | S754_finite s m e =>
      if 0 <=? e then x
      else
        let n := (cond_Zopp s (Zpos m) * 2 + 2 ^ (- e)) / 2 ^ (1 - e) in
        match n with
        | Z0 => if s then (-0)%float else 0%float
        | Zpos _ => of_uint63 (Uint63Axioms.of_Z n)
        | Zneg _ => (- of_uint63 (Uint63Axioms.of_Z (- n)))%float
        end
  | _ => x
  end.

(** [Math.max] on the small integers the code applies it to. *)
Definition Math_max (a b : Z) : Z := Z.max a b.

End JsNumber.
Import JsNumber.

(* ================================================================== *)
(** * JavaScript values, errors and effects *)
(* ================================================================== *)

(** A thrown [Error]; only its message is observed by the code. *)
Record JsError : Type := MkError { message : string }.

(** The result of running code that may throw. *)
Inductive Outcome (A : Type) : Type :=
| Ok (a : A)
| Err (e : JsError).
Arguments Ok {A} a.
Arguments Err {A} e.

Definition obind {A B : Type} (o : Outcome A) (f : A -> Outcome B) : Outcome B :=
  match o with
  | Ok a => f a
  | Err e => Err e
  end.

(** Dynamically typed data: JSON-like values. An object is the list of its
    own properties; the first binding of a key is the property's value. *)
Inductive value : Type :=
| VUndefined
| VNull
| VBool (b : bool)
| VNum (x : float)
| VStr (s : string)
| VObj (fields : list (string * value)).

Fixpoint lookup (k : string) (fields : list (string * value)) : option value :=
  match fields with
  | [] => None
  | (k', v) :: rest => if String.eqb k k' then Some v else lookup k rest
  end.

(** The message V8 gives to the TypeError of reading a property of
    [undefined] or [null]. *)
Definition cannotRead (base : string) (k : string) : JsError :=
  MkError ("Cannot read properties of " ++ base ++ " (reading '" ++ k ++ "')").

(** [v.k]: a missing property reads as [undefined]; reading a property of
    [undefined] or [null] throws; the primitives have none of the
    properties the code reads. *)
Definition getProp (v : value) (k : string) : Outcome value :=
  match v with
  | VUndefined => Err (cannotRead "undefined" k)
  | VNull => Err (cannotRead "null" k)
  | VObj fields =>
      match lookup k fields with
      | Some x => Ok x
      | None => Ok VUndefined
      end
  | _ => Ok VUndefined
  end.

(** [v?.k]. *)
Definition optChain (v : value) (k : string) : Outcome value :=
  match v with
  | VUndefined | VNull => Ok VUndefined
  | _ => getProp v k
  end.

(** Truthiness ([ToBoolean]). *)
Definition ToBoolean (v : value) : bool :=
  match v with
  | VUndefined | VNull => false
  | VBool b => b
  | VNum x => negb ((x =? 0)%float || isNaN x)
  | VStr s => negb (String.eqb s "")
  | VObj _ => true
  end.

(** [a || b] on values. *)
Definition orElse (a b : value) : value := if ToBoolean a then a else b.

(** The host environment: what the JavaScript engine and the npm
    dependency provide. *)
Class Host : Type := {
  Math_sin : float -> float;
  Math_cos : float -> float;
  Math_atan2 : float -> float -> float;
  (** [ToNumber] restricted to strings, and [ToString] restricted to numbers *)
  StringToNumber : string -> float;
  NumberToString : float -> string;
  (** [ngeohash.encode latitude longitude numberOfChars] *)
  ngeohash_encode : float -> float -> Z -> Outcome string;
  (** [ngeohash.neighbors hash] *)
  ngeohash_neighbors : string -> Outcome (list string)
}.

Section Coercions.
Context {host : Host}.

(** [ToNumber]; a plain object converts to NaN. *)
Definition ToNumber (v : value) : float :=
  match v with
  | VUndefined => nan
  | VNull => 0%float
  | VBool b => if b then 1%float else 0%float
  | VNum x => x
  | VStr s => StringToNumber s
  | VObj _ => nan
  end.

(** [ToString], as a template literal applies it. *)
Definition ToString (v : value) : string :=
  match v with
  | VUndefined => "undefined"
  | VNull => "null"
  | VBool b => if b then "true" else "false"
  | VNum x => NumberToString x
  | VStr s => s
  | VObj _ => "[object Object]"
  end.

End Coercions.

(** ** Store reads and the effect monad *)

(** The reads [searchServiceProviders] issues. *)
Inductive StoreOp : Type :=
| OpQueryProviders (servicePath : string) (geohashPrefix : string)
| OpGetUser (userId : string).

(** A computation threads the trace of reads performed so far and may throw. *)
Definition Eff (A : Type) : Type := list StoreOp -> Outcome A * list StoreOp.

Definition ret {A : Type} (a : A) : Eff A := fun t => (Ok a, t).

Definition bind {A B : Type} (m : Eff A) (f : A -> Eff B) : Eff B :=
  fun t =>
    match m t with
    | (Ok a, t') => f a t'
    | (Err e, t') => (Err e, t')
    end.

Definition throw {A : Type} (e : JsError) : Eff A := fun t => (Err e, t).

Definition lift {A : Type} (o : Outcome A) : Eff A := fun t => (o, t).

Definition tell (op : StoreOp) : Eff unit := fun t => (Ok tt, t ++ [op]).

(** [try { m } catch (error) { h error }]. *)
Definition try_catch {A : Type} (m : Eff A) (h : JsError -> Eff A) : Eff A :=
  fun t =>
    match m t with
    | (Ok a, t') => (Ok a, t')
    | (Err e, t') => h e t'
    end.

Declare Scope eff_scope.
Delimit Scope eff_scope with eff.
Notation "x <- m ;; k" := (bind m (fun x => k))
  (at level 61, m at next level, right associativity) : eff_scope.
Notation "m ;;; k" := (bind m (fun _ => k))
  (at level 61, right associativity) : eff_scope.

(** [for (const x of l) body], the loop state passed along. *)
Fixpoint forEach {A S : Type} (l : list A) (body : A -> S -> Eff S) (s : S) : Eff S :=
  match l with
  | [] => ret s
  | x :: rest => bind (body x s) (forEach rest body)
  end.

(* ================================================================== *)
(** * The ngeohash package *)
(* ================================================================== *)

(** The encoder, bounding-box decoder and neighbour function of the npm
    package ngeohash, which utils/geohash.ts imports, for numeric
    coordinates and lower-case hashes.  The repository's code is parametric
    in the package (see [Host]); this module is the instance the examples
    run with. *)
Module NGeohash.

Definition BASE32_CODES : string := "0123456789bcdefghjkmnpqrstuvwxyz".
Definition MIN_LAT : float := (-90)%float.
Definition MAX_LAT : float := 90%float.
Definition MIN_LON : float := (-180)%float.
Definition MAX_LON : float := 180%float.

(** The variables of [encode]'s loop. *)
Record EncodeState : Type := {
  chars : string;
  bits : Z;
  bitsTotal : Z;
  hash_value : Z;
  maxLat : float;
  minLat : float;
  maxLon : float;
  minLon : float
}.

Definition base32Char (h : Z) : string :=
  match String.get (Z.to_nat h) BASE32_CODES with
  | Some c => String c EmptyString
  | None => "undefined"
  end.

(** One iteration of [while (chars.length < numberOfChars)]: one more bit,
    taken from the longitude on even steps and from the latitude on odd ones;
    every fifth bit completes a character. *)
Definition encodeStep (latitude longitude : float) (st : EncodeState) : EncodeState :=
  let st1 :=
    if Z.even (bitsTotal st) then
      let mid := ((maxLon st + minLon st) / 2)%float in
      if gtb longitude mid
      then {| chars := chars st; bits := bits st; bitsTotal := bitsTotal st;
              hash_value := hash_value st * 2 + 1;
              maxLat := maxLat st; minLat := minLat st;
              maxLon := maxLon st; minLon := mid |}
      else {| chars := chars st; bits := bits st; bitsTotal := bitsTotal st;
              hash_value := hash_value st * 2 + 0;
              maxLat := maxLat st; minLat := minLat st;
              maxLon := mid; minLon := minLon st |}
    else
      let mid := ((maxLat st + minLat st) / 2)%float in
      if gtb latitude mid
      then {| chars := chars st; bits := bits st; bitsTotal := bitsTotal st;
              hash_value := hash_value st * 2 + 1;
              maxLat := maxLat st; minLat := mid;
              maxLon := maxLon st; minLon := minLon st |}
      else {| chars := chars st; bits := bits st; bitsTotal := bitsTotal st;
              hash_value := hash_value st * 2 + 0;
              maxLat := mid; minLat := minLat st;
              maxLon := maxLon st; minLon := minLon st |} in
  let bits' := bits st1 + 1 in
  let bitsTotal' := bitsTotal st1 + 1 in
  if bits' =? 5
  then {| chars := chars st1 ++ base32Char (hash_value st1); bits := 0;
          bitsTotal := bitsTotal'; hash_value := 0;
          maxLat := maxLat st1; minLat := minLat st1;
          maxLon := maxLon st1; minLon := minLon st1 |}
  else {| chars := chars st1; bits := bits'; bitsTotal := bitsTotal';
          hash_value := hash_value st1;
          maxLat := maxLat st1; minLat := minLat st1;
          maxLon := maxLon st1; minLon := minLon st1 |}.

(** The loop, with the number of iterations left as fuel. *)
Fixpoint encodeLoop (fuel : nat) (latitude longitude : float) (numberOfChars : Z)
    (st : EncodeState) : EncodeState :=
  match fuel with
  | O => st
  | S fuel' =>
      if Z.of_nat (String.length (chars st)) <? numberOfChars
      then encodeLoop fuel' latitude longitude numberOfChars (encodeStep latitude longitude st)
      else st
  end.

Definition encodeStart : EncodeState :=
  {| chars := ""; bits := 0; bitsTotal := 0; hash_value := 0;
     maxLat := MAX_LAT; minLat := MIN_LAT; maxLon := MAX_LON; minLon := MIN_LON |}.

(** [encode latitude longitude numberOfChars]: five iterations per
    character, so [5 * numberOfChars] iterations end the loop. *)
Definition encode (latitude longitude : float) (numberOfChars : Z) : string :=
  chars (encodeLoop (5 * Z.to_nat numberOfChars) latitude longitude numberOfChars encodeStart).

(** [BASE32_CODES_DICT[code]]. *)
Fixpoint indexOf (c : ascii) (s : string) (i : Z) : option Z :=
  match s with
  | EmptyString => None
  | String c' rest => if Ascii.eqb c c' then Some i else indexOf c rest (i + 1)
  end.

(** The bounding box [(minLat, minLon, maxLat, maxLon)] during [decode_bbox]. *)
Record BBox : Type := { bMinLat : float; bMinLon : float; bMaxLat : float; bMaxLon : float }.

Definition refine (isLon : bool) (bit : bool) (b : BBox) : BBox :=
  if isLon then
    let mid := ((bMaxLon b + bMinLon b) / 2)%float in
    if bit
    then {| bMinLat := bMinLat b; bMinLon := mid; bMaxLat := bMaxLat b; bMaxLon := bMaxLon b |}
    else {| bMinLat := bMinLat b; bMinLon := bMinLon b; bMaxLat := bMaxLat b; bMaxLon := mid |}
  else
    let mid := ((bMaxLat b + bMinLat b) / 2)%float in
    if bit
    then {| bMinLat := mid; bMinLon := bMinLon b; bMaxLat := bMaxLat b; bMaxLon := bMaxLon b |}
    else {| bMinLat := bMinLat b; bMinLon := bMinLon b; bMaxLat := mid; bMaxLon := bMaxLon b |}.

(** The inner loop [for (bits = 4; bits >= 0; bits--)] over one character. *)
Fixpoint refineBits (n : nat) (hashValue : Z) (isLon : bool) (b : BBox) : bool * BBox :=
  match n with
  | O => (isLon, b)
  | S n' =>
      refineBits n' hashValue (negb isLon) (refine isLon (Z.testbit hashValue (Z.of_nat n')) b)
  end.

Fixpoint decodeLoop (hash_string : string) (isLon : bool) (b : BBox) : BBox :=
  match hash_string with
  | EmptyString => b
  | String code rest =>
      match indexOf code BASE32_CODES 0 with
      | Some hashValue =>
          let '(isLon', b') := refineBits 5 hashValue isLon b in
          decodeLoop rest isLon' b'
      | None =>
          (* an unknown character reads as [undefined]: every bit is 0 *)
          let '(isLon', b') := refineBits 5 0 isLon b in
          decodeLoop rest isLon' b'
      end
  end.

Definition decode_bbox (hash_string : string) : BBox :=
  decodeLoop hash_string true
    {| bMinLat := MIN_LAT; bMinLon := MIN_LON; bMaxLat := MAX_LAT; bMaxLon := MAX_LON |}.

(** [ensure_valid_lon]: on the longitudes a neighbour can have (within one
    cell of the range), [MIN_LON + lon % MAX_LON] is [lon - 360] and
    [MAX_LON + lon % MAX_LON] is [lon + 360]. *)
Definition ensure_valid_lon (lon : float) : float :=
  if gtb lon MAX_LON then (lon - 360)%float
  else if (lon <? MIN_LON)%float then (lon + 360)%float
  else lon.

Definition ensure_valid_lat (lat : float) : float :=
  if gtb lat MAX_LAT then MAX_LAT
  else if (lat <? MIN_LAT)%float then MIN_LAT
  else lat.

(** [neighbors hash_string]: n, ne, e, se, s, sw, w, nw. *)
Definition neighbors (hash_string : string) : list string :=
  let hashstringLength := Z.of_nat (String.length hash_string) in
  let b := decode_bbox hash_string in
  let lat := ((bMinLat b + bMaxLat b) / 2)%float in
  let lon := ((bMinLon b + bMaxLon b) / 2)%float in
  let latErr := ((bMaxLat b - lat) * 2)%float in
  let lonErr := ((bMaxLon b - lon) * 2)%float in
  let encodeNeighbor (neighborLatDir neighborLonDir : float) : string :=
    let neighbor_lat := (lat + neighborLatDir * latErr)%float in
    let neighbor_lon := (lon + neighborLonDir * lonErr)%float in
    encode (ensure_valid_lat neighbor_lat) (ensure_valid_lon neighbor_lon) hashstringLength in
  [ encodeNeighbor 1 0; encodeNeighbor 1 1; encodeNeighbor 0 1; encodeNeighbor (-1) 1;
    encodeNeighbor (-1) 0; encodeNeighbor (-1) (-1); encodeNeighbor 0 (-1);
    encodeNeighbor 1 (-1) ]%float.

End NGeohash.

(* ================================================================== *)
(** * utils/geohash.ts *)
(* ================================================================== *)

Section Geohash.
Context {host : Host}.

(** [generateGeohash(latitude, longitude, precision = 7)]; an omitted
    precision is [None]. *)
Definition generateGeohash (latitude longitude : float) (precision : option Z)
    : Outcome string :=
  let precision := match precision with Some p => p | None => 7 end in
  ngeohash_encode latitude longitude precision.

Definition getGeohashNeighbors (geohash : string) : Outcome (list string) :=
  ngeohash_neighbors geohash.

(** Haversine distance in kilometers. *)
Definition calculateDistance (lat1 lon1 lat2 lon2 : float) : float :=
  let R := 6371%float in
  let dLat := ((lat2 - lat1) * (Math_PI / 180))%float in
  let dLon := ((lon2 - lon1) * (Math_PI / 180))%float in
  let a :=
    (Math_sin (dLat / 2) * Math_sin (dLat / 2) +
     Math_cos (lat1 * (Math_PI / 180)) * Math_cos (lat2 * (Math_PI / 180)) *
       Math_sin (dLon / 2) * Math_sin (dLon / 2))%float in
  let c := (2 * Math_atan2 (Math_sqrt a) (Math_sqrt (1 - a)))%float in
  (R * c)%float.

Definition getGeohashPrecisionForRadius (radiusMeters : float) : Z :=
  if geb radiusMeters 5000 then 1
  else if geb radiusMeters 1250 then 2
  else if geb radiusMeters 156 then 3
  else if geb radiusMeters 39 then 4
  else if geb radiusMeters 4.9 then 5
  else if geb radiusMeters 1.2 then 6
  else if geb radiusMeters 0.153 then 7
  else if geb radiusMeters 0.038 then 8
  else 9.

Definition getGeohashPrefixesForSearch (latitude longitude radiusMeters : float)
    : Outcome (list string) :=
  let precision := getGeohashPrecisionForRadius radiusMeters in
  obind (generateGeohash latitude longitude (Some precision)) (fun baseGeohash =>
  if (radiusMeters <=? 1000)%float then
    obind (getGeohashNeighbors baseGeohash) (fun neighbours =>
    Ok (baseGeohash :: neighbours))
  else
    let shorterPrecision := Math_max 1 (precision - 2) in
    obind (generateGeohash latitude longitude (Some shorterPrecision)) (fun prefixGeohash =>
    Ok [prefixGeohash])).

End Geohash.

(* ================================================================== *)
(** * The document store *)
(* ================================================================== *)

(** A document: its id and the fields [doc.data()] returns. *)
Definition Document : Type := (string * list (string * value))%type.

Definition docId (d : Document) : string := fst d.
Definition docData (d : Document) : value := VObj (snd d).

(** The two collections the search reads.  [serviceProviders] lists the
    documents in the order in which a range query on the geohash returns
    them (by geohash, then by id). *)
Record Firestore : Type := {
  serviceProviders : list Document;
  users : list Document
}.

(** A dotted field path, split into its segments. *)
Fixpoint splitDots (s : string) : list string :=
  match s with
  | EmptyString => [EmptyString]
  | String c rest =>
      match splitDots rest with
      | seg :: segs =>
          if Ascii.eqb c "."%char then EmptyString :: seg :: segs
          else String c seg :: segs
      | [] => [String c EmptyString]
      end
  end.

(** The field a path designates, through nested maps only. *)
Fixpoint fieldAt (path : list string) (v : value) : option value :=
  match path with
  | [] => Some v
  | k :: rest =>
      match v with
      | VObj fields =>
          match lookup k fields with
          | Some x => fieldAt rest x
          | None => None
          end
      | _ => None
      end
  end.

(** The value at a path of property names, [undefined] where the path
    leaves the data. *)
Definition valueAt (path : list string) (v : value) : value :=
  match fieldAt path v with
  | Some x => x
  | None => VUndefined
  end.

(** [where(path, "==", true)]: the field exists and is the boolean true. *)
Definition fieldIsTrue (path : string) (data : value) : bool :=
  match fieldAt (splitDots path) data with
  | Some (VBool true) => true
  | _ => false
  end.

(** [where(path, ">=", lo).where(path, "<", hi)] with string bounds: the
    field is a string in the half-open range, in byte order. *)
Definition fieldInRange (path : string) (lo hi : string) (data : value) : bool :=
  match fieldAt (splitDots path) data with
  | Some (VStr g) => (lo <=? g)%string && (g <? hi)%string
  | _ => false
  end.

(** The query of [searchServiceProviders] for one prefix. *)
Definition matchesQuery (servicePath geohashPrefix : string) (d : Document) : bool :=
  fieldIsTrue "isActive" (docData d)
  && fieldIsTrue servicePath (docData d)
  && fieldInRange "workingPreferences.serviceArea.geohash"
       geohashPrefix (geohashPrefix ++ "~") (docData d).

Definition queryProviders (db : Firestore) (servicePath geohashPrefix : string)
    : Eff (list Document) :=
  bind (tell (OpQueryProviders servicePath geohashPrefix)) (fun _ =>
  ret (filter (matchesQuery servicePath geohashPrefix) (serviceProviders db))).

Fixpoint findDoc (docs : list Document) (key : string) : option Document :=
  match docs with
  | [] => None
  | d :: rest => if String.eqb key (docId d) then Some d else findDoc rest key
  end.

(** The SDK refuses a document path that is not a non-empty string (its
    message, without the quotation marks around the argument name). *)
Definition invalidDocumentPath : JsError :=
  MkError "Value for argument documentPath is not a valid resource path. Path must be a non-empty string.".

(** [(await db.collection("users").doc(userId).get()).data()]: the fields
    of the document, [undefined] when there is none. *)
Definition getUserData (db : Firestore) (userId : value) : Eff value :=
  match userId with
  | VStr key =>
      if String.eqb key "" then throw invalidDocumentPath
      else
        bind (tell (OpGetUser key)) (fun _ =>
        ret (match findDoc (users db) key with
             | Some d => docData d
             | None => VUndefined
             end))
  | _ => throw invalidDocumentPath
  end.

(* ================================================================== *)
(** * functions/serviceProviderFunctions.ts: searchServiceProviders *)
(* ================================================================== *)

(** [Array.prototype.sort(comparefn)]: the sort is stable, and an element
    precedes another when [comparefn] of the two is negative (a NaN
    comparison counts as +0).  For a consistent [comparefn] that fixes the
    result; it is computed here by stable insertion. *)
Section ArraySort.
Context {A : Type} (comparefn : A -> A -> float).

Fixpoint insertSorted (x : A) (l : list A) : list A :=
  match l with
  | [] => [x]
  | y :: rest =>
      if (comparefn y x <? 0)%float then y :: insertSorted x rest
      else x :: y :: rest
  end.

Fixpoint Array_sort (l : list A) : list A :=
  match l with
  | [] => []
  | x :: rest => insertSorted x (Array_sort rest)
  end.

End ArraySort.

Record ServiceProviderProfile : Type := {
  firstName : value;
  lastName : value;
  profileImage : value;
  phone : value
}.

Record ServiceProviderResult : Type := {
  id : string;
  userId : value;
  profile : ServiceProviderProfile;
  services : value;
  extraOptions : value;
  workingPreferences : value;
  rating : value;
  totalJobs : value;
  distance : float
}.

Section Search.
Context {host : Host}.

Local Open Scope eff_scope.

(** [const { serviceType, location } = request.data]: one property of the
    pattern. *)
Definition destructure (data : value) (k : string) : Outcome value :=
  match data with
  | VUndefined =>
      Err (MkError ("Cannot destructure property '" ++ k ++ "' of 'request.data' as it is undefined."))
  | VNull =>
      Err (MkError ("Cannot destructure property '" ++ k ++ "' of 'request.data' as it is null."))
  | _ => getProp data k
  end.

(** [!serviceType || !location || !location.latitude || !location.longitude],
    evaluated left to right. *)
Definition requestInvalid (serviceType location : value) : Outcome bool :=
  if negb (ToBoolean serviceType) then Ok true
  else if negb (ToBoolean location) then Ok true
  else
    obind (getProp location "latitude") (fun latitude =>
    if negb (ToBoolean latitude) then Ok true
    else
      obind (getProp location "longitude") (fun longitude =>
      Ok (negb (ToBoolean longitude)))).

(** The 50 km radius that selects the prefixes. *)
Definition searchRadius : float := 50000%float.

(** The body of [for (const doc of snapshot.docs)]; [providers.push]
    appends. *)
Definition processDoc (db : Firestore) (location : value) (doc : Document)
    (providers : list ServiceProviderResult) : Eff (list ServiceProviderResult) :=
  let provider := docData doc in
  guardWp <- lift (getProp provider "workingPreferences") ;;
  guard <- lift (optChain guardWp "serviceArea") ;;
  if ToBoolean guard then
    wp <- lift (getProp provider "workingPreferences") ;;
    serviceArea <- lift (getProp wp "serviceArea") ;;
    lat1 <- lift (getProp location "latitude") ;;
    lon1 <- lift (getProp location "longitude") ;;
    coordinates <- lift (getProp serviceArea "coordinates") ;;
    lat2 <- lift (getProp coordinates "latitude") ;;
    coordinates' <- lift (getProp serviceArea "coordinates") ;;
    lon2 <- lift (getProp coordinates' "longitude") ;;
    let distance :=
      calculateDistance (ToNumber lat1) (ToNumber lon1) (ToNumber lat2) (ToNumber lon2) in
    radius <- lift (getProp serviceArea "radius") ;;
    if (distance <=? ToNumber radius / 1000)%float then
      providerUserId <- lift (getProp provider "userId") ;;
      userData <- getUserData db providerUserId ;;
      userFirstName <- lift (optChain userData "firstName") ;;
      userLastName <- lift (optChain userData "lastName") ;;
      userProfileImage <- lift (optChain userData "profileImage") ;;
      userPhone <- lift (optChain userData "phone") ;;
      providerUserId' <- lift (getProp provider "userId") ;;
      providerServices <- lift (getProp provider "services") ;;
      providerExtraOptions <- lift (getProp provider "extraOptions") ;;
      providerWp <- lift (getProp provider "workingPreferences") ;;
      providerRating <- lift (getProp provider "rating") ;;
      providerTotalJobs <- lift (getProp provider "totalJobs") ;;
      ret (providers ++
           [ {| id := docId doc;
                userId := providerUserId';
                profile := {| firstName := orElse userFirstName (VStr "");
                              lastName := orElse userLastName (VStr "");
                              profileImage := userProfileImage;
                              phone := orElse userPhone (VStr "") |};
                services := providerServices;
                extraOptions := providerExtraOptions;
                workingPreferences := providerWp;
                rating := providerRating;
                totalJobs := providerTotalJobs;
                distance := Math_round (distance * 1000)%float |} ])
    else ret providers
  else ret providers.

(** The body of [for (const geohashPrefix of geohashPrefixes)]. *)
Definition processPrefix (db : Firestore) (serviceType location : value)
    (geohashPrefix : string) (providers : list ServiceProviderResult)
    : Eff (list ServiceProviderResult) :=
  docs <- queryProviders db ("services." ++ ToString serviceType) geohashPrefix ;;
  forEach docs (processDoc db location) providers.

(** [(a, b) => a.distance - b.distance]. *)
Definition byDistance (a b : ServiceProviderResult) : float :=
  (distance a - distance b)%float.

(** The [try] block.  The [logger] calls have no effect on the result. *)
Definition searchBody (db : Firestore) (data : value) : Eff (list ServiceProviderResult) :=
  serviceType <- lift (destructure data "serviceType") ;;
  location <- lift (destructure data "location") ;;
  invalid <- lift (requestInvalid serviceType location) ;;
  if invalid then throw (MkError "Invalid request parameters")
  else
    latitude <- lift (getProp location "latitude") ;;
    longitude <- lift (getProp location "longitude") ;;
    geohashPrefixes <-
      lift (getGeohashPrefixesForSearch (ToNumber latitude) (ToNumber longitude) searchRadius) ;;
    providers <- forEach geohashPrefixes (processPrefix db serviceType location) [] ;;
    ret (Array_sort byDistance providers).

(** The callable: every error is caught and rethrown with a prefix
    ([error instanceof Error] holds of every error the model throws). *)
Definition searchServiceProviders (db : Firestore) (data : value)
    : Eff (list ServiceProviderResult) :=
  try_catch (searchBody db data)
    (fun error =>
       throw (MkError ("Failed to search service providers: " ++ message error))).

(** The run of a call: its outcome and the reads it performed. *)
Definition runSearch (db : Firestore) (data : value)
    : Outcome (list ServiceProviderResult) * list StoreOp :=
  searchServiceProviders db data [].

End Search.

(* ================================================================== *)
(** * A concrete host and sample data *)
(* ================================================================== *)

(** A host to run the code with: ngeohash as modelled above, and polynomial
    approximations of the trigonometric functions, accurate to about 1e-7 on
    the arguments the distance computation produces.  The string/number
    conversions are not exercised by the sample data. *)
Module SampleHost.

Definition sin (x : float) : float :=
  let x2 := (x * x)%float in
  (x * (1 - x2 / 6 * (1 - x2 / 20 * (1 - x2 / 42 * (1 - x2 / 72 * (1 - x2 / 110))))))%float.

Definition cos (x : float) : float :=
  let x2 := (x * x)%float in
  (1 - x2 / 2 * (1 - x2 / 12 * (1 - x2 / 30 * (1 - x2 / 56 * (1 - x2 / 90 * (1 - x2 / 132))))))%float.

Definition halveTangent (t : float) : float := (t / (1 + sqrt (1 + t * t)))%float.

Definition atan (t : float) : float :=
  let u := halveTangent (halveTangent t) in
  let u2 := (u * u)%float in
  (4 * (u * (1 - u2 * (1 / 3 - u2 * (1 / 5 - u2 * (1 / 7 - u2 * (1 / 9)))))))%float.

Definition atan2 (y x : float) : float :=
  if isNaN y || isNaN x then nan
  else if (0 <? x)%float then atan (y / x)
  else if (x <? 0)%float then
    if (y <? 0)%float then (atan (y / x) - Math_PI)%float else (atan (y / x) + Math_PI)%float
  else if (0 <? y)%float then (Math_PI / 2)%float
  else if (y <? 0)%float then (- (Math_PI / 2))%float
  else 0%float.

#[export] Instance host : Host := {|
  Math_sin := sin;
  Math_cos := cos;
  Math_atan2 := atan2;
  StringToNumber := fun _ => nan;
  NumberToString := fun _ => "NaN";
  ngeohash_encode := fun latitude longitude numberOfChars =>
    Ok (NGeohash.encode latitude longitude numberOfChars);
  ngeohash_neighbors := fun hash => Ok (NGeohash.neighbors hash)
|}.

End SampleHost.

(** Sample data: the scenarios of the specification. *)
Module Sample.

Definition serviceArea (latitude longitude radius : float) (geohash : string) : value :=
  VObj [ ("fullAddress", VStr "Lagos");
         ("coordinates", VObj [("latitude", VNum latitude); ("longitude", VNum longitude)]);
         ("radius", VNum radius);
         ("geohash", VStr geohash) ].

Definition provider (uid : string) (classic : bool) (area : value) : Document :=
  (uid,
   [ ("userId", VStr uid);
     ("isActive", VBool true);
     ("services", VObj [("classic-cleaning", VBool classic); ("deep-cleaning", VBool false)]);
     ("extraOptions", VObj []);
     ("workingPreferences", VObj [("serviceArea", area)]);
     ("rating", VNum 4.5);
     ("totalJobs", VNum 12) ]).

(** In Lagos, 5 km radius. *)
Definition lagos : Document :=
  provider "lagos" true (serviceArea 6.5244 3.3792 5000 "s14mhgs").

(** On Victoria Island, 8 km to the south, 20 km radius. *)
Definition island : Document :=
  provider "island" true (serviceArea 6.4541 3.3947 20000 "s14ktnz").

(** A service area without its [coordinates] object. *)
Definition noCoordinates : Document :=
  provider "broken" true
    (VObj [("radius", VNum 5000); ("geohash", VStr "s14mhgs")]).

(** A service area whose coordinates lack the latitude. *)
Definition noLatitude : Document :=
  provider "partial" true
    (VObj [ ("coordinates", VObj [("longitude", VNum 3.3792)]);
            ("radius", VNum 5000); ("geohash", VStr "s14mhgs") ]).

Definition userDocs : list Document :=
  [ ("lagos", [("firstName", VStr "Ada"); ("lastName", VStr "Obi"); ("phone", VStr "0800")]);
    ("island", [("firstName", VStr "Tunde"); ("lastName", VStr "Ade"); ("phone", VStr "0801")]) ].

Definition db : Firestore :=
  {| serviceProviders := [island; lagos]; users := userDocs |}.

Definition dbWithNoCoordinates : Firestore :=
  {| serviceProviders := [island; noCoordinates; lagos]; users := userDocs |}.

Definition dbWithNoLatitude : Firestore :=
  {| serviceProviders := [island; lagos; noLatitude]; users := userDocs |}.

Definition request (serviceType : value) (latitude longitude : value) : value :=
  VObj [ ("serviceType", serviceType);
         ("location", VObj [("latitude", latitude); ("longitude", longitude)]) ].

(** A query at the Lagos provider's own position. *)
Definition atLagos : value :=
  request (VStr "classic-cleaning") (VNum 6.5244) (VNum 3.3792).

(** The same query without a service type, and on the equator. *)
Definition withoutServiceType : value :=
  VObj [ ("location", VObj [("latitude", VNum 6.5244); ("longitude", VNum 3.3792)]) ].

Definition onEquator : value :=
  request (VStr "classic-cleaning") (VNum 0) (VNum 3.3792).

(** The result expected for a provider document. *)
Definition resultOf (d : Document) (first last phoneNumber : string) (meters : float)
    : ServiceProviderResult :=
  {| id := docId d;
     userId := valueAt ["userId"] (docData d);
     profile := {| firstName := VStr first; lastName := VStr last;
                   profileImage := VUndefined; phone := VStr phoneNumber |};
     services := valueAt ["services"] (docData d);
     extraOptions := valueAt ["extraOptions"] (docData d);
     workingPreferences := valueAt ["workingPreferences"] (docData d);
     rating := valueAt ["rating"] (docData d);
     totalJobs := valueAt ["totalJobs"] (docData d);
     distance := meters |}.

Definition lagosResult : ServiceProviderResult := resultOf lagos "Ada" "Obi" "0800" 0.
Definition islandResult : ServiceProviderResult := resultOf island "Tunde" "Ade" "0801" 8002.

(** The query at Lagos returns both providers, the nearest first, after one
    range query and one profile read per accepted provider. *)
Definition results : list ServiceProviderResult := [lagosResult; islandResult].

Definition trace : list StoreOp :=
  [ OpQueryProviders "services.classic-cleaning" "s"; OpGetUser "island"; OpGetUser "lagos" ].

End Sample.

(* ================================================================== *)
(** * The specification's own words *)
(* ================================================================== *)

(** The step table of the specification, thresholds in meters. *)
Definition spec_precisionForRadius (radiusMeters : float) : Z :=
  if geb radiusMeters 5000000 then 1
  else if geb radiusMeters 1250000 then 2
  else if geb radiusMeters 156000 then 3
  else if geb radiusMeters 39000 then 4
  else if geb radiusMeters 4900 then 5
  else if geb radiusMeters 1200 then 6
  else if geb radiusMeters 153 then 7
  else if geb radiusMeters 38 then 8
  else 9.

Section SpecWords.
Context {host : Host}.

(** The Haversine distance, in kilometers, between the query coordinate of
    a request and the service-area center of a result. *)
Definition haversineKm (data : value) (r : ServiceProviderResult) : float :=
  calculateDistance
    (ToNumber (valueAt ["location"; "latitude"] data))
    (ToNumber (valueAt ["location"; "longitude"] data))
    (ToNumber (valueAt ["serviceArea"; "coordinates"; "latitude"] (workingPreferences r)))
    (ToNumber (valueAt ["serviceArea"; "coordinates"; "longitude"] (workingPreferences r))).

(** The radius, in meters, a result's provider declares. *)
Definition declaredRadius (r : ServiceProviderResult) : float :=
  ToNumber (valueAt ["serviceArea"; "radius"] (workingPreferences r)).

(** A result passes the refinement step. *)
Definition withinServiceArea (data : value) (r : ServiceProviderResult) : Prop :=
  (haversineKm data r <=? declaredRadius r / 1000)%float = true.

(** [distanceMeters] as the specification defines it. *)
Definition distanceMeters (data : value) (r : ServiceProviderResult) : float :=
  Math_round (haversineKm data r * 1000)%float.

End SpecWords.

Section SpecPredicates.
Context {host : Host}.

(** What the refinement step establishes of a pushed result, in terms of
    the request's [location]. *)
Definition acceptedAt (location : value) (r : ServiceProviderResult) : Prop :=
  let d :=
    calculateDistance
      (ToNumber (valueAt ["latitude"] location))
      (ToNumber (valueAt ["longitude"] location))
      (ToNumber (valueAt ["serviceArea"; "coordinates"; "latitude"] (workingPreferences r)))
      (ToNumber (valueAt ["serviceArea"; "coordinates"; "longitude"] (workingPreferences r))) in
  (d <=? declaredRadius r / 1000)%float = true /\
  distance r = Math_round (d * 1000)%float.

End SpecPredicates.

(** A result whose distance is a number. *)
Definition hasDistance (r : ServiceProviderResult) : Prop := isNaN (distance r) = false.

(** The request names no service category: it is absent, null or empty. *)
Definition categoryEmptyOrAbsent (data : value) : Prop :=
  valueAt ["serviceType"] data = VUndefined \/
  valueAt ["serviceType"] data = VNull \/
  valueAt ["serviceType"] data = VStr "".

(** The request's location lacks the coordinate [k]. *)
Definition lacksCoordinate (k : string) (data : value) : Prop :=
  valueAt ["location"; k] data = VUndefined \/ valueAt ["location"; k] data = VNull.

(** The request's coordinate [k] is the number zero. *)
Definition zeroCoordinate (k : string) (data : value) : Prop :=
  exists x, valueAt ["location"; k] data = VNum x /\ (x =? 0)%float = true.

(** Shapes of a malformed service area that make the loop pass over a
    record: no service area at all; a service area whose [coordinates]
    object has no latitude, or no longitude; a service area with its
    coordinates object but no radius. *)
Inductive SkippedArea (d : Document) : Prop :=
| NoServiceArea :
    ToBoolean (valueAt ["workingPreferences"; "serviceArea"] (docData d)) = false ->
    SkippedArea d
| NoLatitude (wp area c : list (string * value)) :
    lookup "workingPreferences" (snd d) = Some (VObj wp) ->
    lookup "serviceArea" wp = Some (VObj area) ->
    lookup "coordinates" area = Some (VObj c) ->
    lookup "latitude" c = None ->
    SkippedArea d
| NoLongitude (wp area c : list (string * value)) :
    lookup "workingPreferences" (snd d) = Some (VObj wp) ->
    lookup "serviceArea" wp = Some (VObj area) ->
    lookup "coordinates" area = Some (VObj c) ->
    lookup "longitude" c = None ->
    SkippedArea d
| NoRadius (wp area c : list (string * value)) :
    lookup "workingPreferences" (snd d) = Some (VObj wp) ->
    lookup "serviceArea" wp = Some (VObj area) ->
    lookup "coordinates" area = Some (VObj c) ->
    lookup "radius" area = None ->
    SkippedArea d.

(** ECMAScript requires [Math.sin] and [Math.atan2] to return NaN on NaN. *)
Definition propagatesNaN (host : Host) : Prop :=
  Math_sin nan = nan /\ forall y, Math_atan2 nan y = nan.

(** The order of the result list. *)
Definition distanceLe (a b : ServiceProviderResult) : Prop :=
  (distance a <=? distance b)%float = true.

(** The outcome of a rejected request. *)
Definition invalidRequest : JsError :=
  MkError "Failed to search service providers: Invalid request parameters".

(* ================================================================== *)
(** * Auxiliary notions on binary64 numbers *)
(* ================================================================== *)

(** The least exponent of binary64. *)
Definition emin64 : Z := SpecFloat.emin prec emax.

(** A number that is finite and not zero, or infinite, of sign [s]. *)
Definition SFsigned (s : bool) (x : spec_float) : Prop :=
  match x with
  | S754_finite s' _ _ | S754_infinity s' => s' = s
  | _ => False
  end.

(** A number of sign [s], zero included; not NaN. *)
Definition SFweak (s : bool) (x : spec_float) : Prop :=
  match x with
  | S754_finite s' _ _ | S754_infinity s' | S754_zero s' => s' = s
  | S754_nan => False
  end.

(** The exact difference of two finite numbers, in units of the smaller
    exponent: the integer [SFsub] rounds. *)
Definition SFdiff (sx : bool) (mx : positive) (ex : Z) (sy : bool) (my : positive) (ey : Z) : Z :=
  let ez := Z.min ex ey in
  cond_Zopp sx (Zpos (fst (shl_align mx ex ez))) - cond_Zopp sy (Zpos (fst (shl_align my ey ez))).

(* ================================================================== *)
(** * Facts about binary64 numbers *)
(* ================================================================== *)

Section FloatFacts.

Local Open Scope Z_scope.

(** ** The order *)

Lemma SFleb_trans x y z :
  SFleb x y = true -> SFleb y z = true -> SFleb x z = true.
Proof.
  unfold SFleb.
  destruct x as [sx|sx| |sx mx ex], y as [sy|sy| |sy my ey], z as [sz|sz| |sz mz ez];
    simpl; try discriminate; try reflexivity;
    repeat match goal with s : bool |- _ => destruct s end;
    simpl; try discriminate; try reflexivity.
  all: destruct (Z.compare_spec ex ey), (Z.compare_spec ey ez), (Z.compare_spec ex ez);
    subst; try lia; try discriminate; try reflexivity.
  all: rewrite ?Pos.compare_cont_spec; simpl.
  all: destruct (Pos.compare_spec mx my), (Pos.compare_spec my mz), (Pos.compare_spec mx mz);
    subst; simpl; try lia; try discriminate; try reflexivity.
Qed.

Lemma leb_trans (x y z : float) :
  (x <=? y)%float = true -> (y <=? z)%float = true -> (x <=? z)%float = true.
Proof. rewrite !leb_spec. apply SFleb_trans. Qed.

Lemma SFcompare_antisym x y :
  SFcompare x y = option_map CompOpp (SFcompare y x).
Proof.
  destruct x as [sx|sx| |sx mx ex], y as [sy|sy| |sy my ey];
    repeat match goal with s : bool |- _ => destruct s end; try reflexivity.
  all: simpl; rewrite (Z.compare_antisym ey ex); destruct (ey ?= ex); simpl; try reflexivity.
  all: rewrite !Pos.compare_cont_spec; simpl Pos.switch_Eq;
    rewrite (Pos.compare_antisym my mx); destruct (my ?= mx)%positive; reflexivity.
Qed.

Lemma SFcompare_refl x : x <> S754_nan -> SFcompare x x = Some Eq.
Proof.
  destruct x as [s|s| |s m e]; try destruct s; try reflexivity; try congruence.
  all: intros _; simpl; rewrite Z.compare_refl, Pos.compare_cont_refl; reflexivity.
Qed.

Lemma SFcompare_nan_r x : SFcompare x S754_nan = None.
Proof. destruct x; reflexivity. Qed.

Lemma isNaN_false_iff (x : float) : isNaN x = false <-> Prim2SF x <> S754_nan.
Proof.
  unfold isNaN. rewrite eqb_spec. unfold SFeqb. split.
  - intros H E. rewrite E in H. discriminate.
  - intros H. rewrite (SFcompare_refl _ H). reflexivity.
Qed.

Lemma leb_not_NaN (x y : float) :
  (x <=? y)%float = true -> isNaN x = false /\ isNaN y = false.
Proof.
  rewrite leb_spec, !isNaN_false_iff. unfold SFleb. intros H. split; intros E; rewrite E in H.
  - discriminate.
  - rewrite SFcompare_nan_r in H. discriminate.
Qed.

Lemma ltb_leb (x y : float) : (x <? y)%float = true -> (x <=? y)%float = true.
Proof.
  rewrite ltb_spec, leb_spec. unfold SFltb, SFleb.
  destruct (SFcompare (Prim2SF x) (Prim2SF y)) as [[]|]; congruence.
Qed.

Lemma leb_of_not_ltb (x y : float) :
  isNaN x = false -> isNaN y = false ->
  (y <? x)%float = false -> (x <=? y)%float = true.
Proof.
  rewrite !isNaN_false_iff, ltb_spec, leb_spec. unfold SFltb, SFleb.
  intros Hx Hy. rewrite (SFcompare_antisym (Prim2SF x) (Prim2SF y)).
  destruct (Prim2SF x) as [sx|sx| |sx mx ex], (Prim2SF y) as [sy|sy| |sy my ey];
    try congruence;
    match goal with |- context [SFcompare ?a ?b] => destruct (SFcompare a b) as [[]|] eqn:E end;
    simpl; try congruence; try discriminate E.
Qed.

(** ** Rounding keeps the sign *)

Lemma digits2_pos_bounds (m : positive) :
  2 ^ (Zpos (digits2_pos m) - 1) <= Zpos m < 2 ^ Zpos (digits2_pos m).
Proof.
  induction m as [m IH|m IH|]; simpl digits2_pos.
  - rewrite Pos2Z.inj_succ, Z.pow_succ_r by lia.
    replace (Z.succ (Zpos (digits2_pos m)) - 1) with (Z.succ (Zpos (digits2_pos m) - 1)) by lia.
    rewrite Z.pow_succ_r by lia. lia.
  - rewrite Pos2Z.inj_succ, Z.pow_succ_r by lia.
    replace (Z.succ (Zpos (digits2_pos m)) - 1) with (Z.succ (Zpos (digits2_pos m) - 1)) by lia.
    rewrite Z.pow_succ_r by lia. lia.
  - simpl. lia.
Qed.

Lemma shr_1_m mrs : 0 <= shr_m mrs -> shr_m (shr_1 mrs) = shr_m mrs / 2.
Proof.
  destruct mrs as [m r s]; simpl. destruct m as [|p|p]; try lia; intros _.
  - reflexivity.
  - destruct p; simpl shr_m.
    + rewrite Pos2Z.inj_xI. apply Z.div_unique with (r := 1); lia.
    + rewrite Pos2Z.inj_xO. apply Z.div_unique with (r := 0); lia.
    + reflexivity.
Qed.

Lemma iter_pos_shr_m p : forall mrs, 0 <= shr_m mrs ->
  shr_m (iter_pos shr_1 p mrs) = shr_m mrs / 2 ^ Zpos p.
Proof.
  induction p as [p IH|p IH|]; intros mrs Hm; simpl iter_pos.
  - assert (Hp : 0 < 2 ^ Zpos p) by (apply Z.pow_pos_nonneg; lia).
    assert (H1 : 0 <= shr_m (shr_1 mrs)) by (rewrite shr_1_m by assumption; apply Z.div_pos; lia).
    assert (H2 : 0 <= shr_m (iter_pos shr_1 p (shr_1 mrs)))
      by (rewrite IH by assumption; apply Z.div_pos; lia).
    rewrite IH, IH, shr_1_m by assumption.
    rewrite !Z.div_div by lia.
    f_equal. replace (Zpos p~1) with (1 + Zpos p + Zpos p) by lia.
    rewrite !Z.pow_add_r by lia. lia.
  - assert (Hp : 0 < 2 ^ Zpos p) by (apply Z.pow_pos_nonneg; lia).
    assert (H2 : 0 <= shr_m (iter_pos shr_1 p mrs))
      by (rewrite IH by assumption; apply Z.div_pos; lia).
    rewrite IH, IH by assumption.
    rewrite !Z.div_div by lia.
    f_equal. replace (Zpos p~0) with (Zpos p + Zpos p) by lia.
    rewrite !Z.pow_add_r by lia. lia.
  - rewrite shr_1_m by assumption. reflexivity.
Qed.


Lemma shr_record_of_loc_m m l : shr_m (shr_record_of_loc m l) = m.
Proof. destruct l as [|[]]; reflexivity. Qed.

Lemma shr_fexp_nonneg m e l :
  0 <= m -> 0 <= shr_m (fst (shr_fexp prec emax m e l)).
Proof.
  intros Hm. unfold shr_fexp, shr.
  destruct (fexp prec emax (Zdigits2 m + e) - e) as [|n|n]; simpl fst;
    rewrite ?iter_pos_shr_m; rewrite ?shr_record_of_loc_m; try lia.
  apply Z.div_pos; [lia | apply Z.pow_pos_nonneg; lia].
Qed.

Lemma shr_fexp_pos m e l :
  1 <= m -> emin64 <= e ->
  1 <= shr_m (fst (shr_fexp prec emax m e l)) /\ emin64 <= snd (shr_fexp prec emax m e l).
Proof.
  intros Hm He. unfold shr_fexp, shr.
  destruct m as [|m|m]; try lia. simpl Zdigits2.
  destruct (fexp prec emax (Zpos (digits2_pos m) + e) - e) as [|n|n] eqn:En; simpl fst; simpl snd;
    rewrite ?iter_pos_shr_m; rewrite ?shr_record_of_loc_m; try lia.
  unfold fexp, emin64, SpecFloat.emin, prec, emax in *.
  pose proof (digits2_pos_bounds m) as [Hlo Hhi].
  assert (Hn : Zpos n <= Zpos (digits2_pos m) - 1) by lia.
  split; [|lia].
  apply Z.div_le_lower_bound; [apply Z.pow_pos_nonneg; lia|].
  rewrite Z.mul_1_r. etransitivity; [|exact Hlo].
  apply Z.pow_le_mono_r; lia.
Qed.

Lemma round_nearest_even_ge m l : m <= round_nearest_even m l.
Proof. destruct l as [|[]]; simpl; try lia. destruct (Z.even m); lia. Qed.


Lemma binary_round_aux_weak s m e l :
  0 <= m -> SFweak s (binary_round_aux prec emax s m e l).
Proof.
  intros Hm. unfold binary_round_aux.
  destruct (shr_fexp prec emax m e l) as [mrs' e'] eqn:E1.
  destruct (shr_fexp prec emax (round_nearest_even (shr_m mrs') (loc_of_shr_record mrs')) e' loc_Exact)
    as [mrs'' e''] eqn:E2.
  assert (H1 : 0 <= shr_m mrs')
    by (change mrs' with (fst (mrs', e')); rewrite <- E1; now apply shr_fexp_nonneg).
  assert (H2 : 0 <= shr_m mrs'').
  { change mrs'' with (fst (mrs'', e'')); rewrite <- E2. apply shr_fexp_nonneg.
    pose proof (round_nearest_even_ge (shr_m mrs') (loc_of_shr_record mrs')). lia. }
  destruct (shr_m mrs'') as [|p|p]; [reflexivity| |lia].
  destruct (e'' <=? emax - prec); reflexivity.
Qed.

Lemma binary_round_aux_signed s m e l :
  1 <= m -> emin64 <= e -> SFsigned s (binary_round_aux prec emax s m e l).
Proof.
  intros Hm He. unfold binary_round_aux.
  destruct (shr_fexp prec emax m e l) as [mrs' e'] eqn:E1.
  destruct (shr_fexp prec emax (round_nearest_even (shr_m mrs') (loc_of_shr_record mrs')) e' loc_Exact)
    as [mrs'' e''] eqn:E2.
  pose proof (shr_fexp_pos m e l Hm He) as [H1 H1e]. rewrite E1 in H1, H1e. simpl in H1, H1e.
  pose proof (round_nearest_even_ge (shr_m mrs') (loc_of_shr_record mrs')) as Hr.
  pose proof (shr_fexp_pos (round_nearest_even (shr_m mrs') (loc_of_shr_record mrs')) e' loc_Exact
                ltac:(lia) H1e) as [H2 _].
  rewrite E2 in H2. simpl in H2.
  destruct (shr_m mrs'') as [|p|p]; [lia| |lia].
  destruct (e'' <=? emax - prec); reflexivity.
Qed.

Lemma iter_xO m d : Zpos (Pos.iter xO m d) = Zpos m * 2 ^ Zpos d.
Proof.
  revert m. induction d using Pos.peano_ind; intros m.
  - simpl. lia.
  - rewrite Pos.iter_succ, Pos2Z.inj_xO, IHd, Pos2Z.inj_succ, Z.pow_succ_r by lia. lia.
Qed.

Lemma shl_align_spec m e e' :
  e' <= e ->
  Zpos (fst (shl_align m e e')) = Zpos m * 2 ^ (e - e') /\ snd (shl_align m e e') = e'.
Proof.
  intros H. unfold shl_align. destruct (e' - e) as [|d|d] eqn:E; simpl fst; simpl snd.
  - replace (e - e') with 0 by lia. rewrite Z.pow_0_r. split; lia.
  - lia.
  - rewrite iter_xO. replace (e - e') with (Zpos d) by lia. split; reflexivity.
Qed.

Lemma shl_align_exponent m e e' : snd (shl_align m e e') = Z.min e e'.
Proof.
  unfold shl_align. destruct (e' - e) as [|d|d] eqn:E; simpl; lia.
Qed.

Lemma binary_round_signed s m e :
  emin64 <= e -> SFsigned s (binary_round prec emax s m e).
Proof.
  intros He. unfold binary_round.
  destruct (shl_align m e (fexp prec emax (Zpos (digits2_pos m) + e))) as [mz ez] eqn:E.
  apply binary_round_aux_signed; [lia|].
  change ez with (snd (mz, ez)). rewrite <- E, shl_align_exponent.
  unfold fexp, emin64, SpecFloat.emin, prec, emax in *. lia.
Qed.

Lemma binary_round_weak s m e : SFweak s (binary_round prec emax s m e).
Proof.
  unfold binary_round.
  destruct (shl_align m e (fexp prec emax (Zpos (digits2_pos m) + e))) as [mz ez] eqn:E.
  apply binary_round_aux_weak; lia.
Qed.

(** ** The sign of a difference *)

Lemma valid_finite_facts s m e :
  valid_binary (S754_finite s m e) = true ->
  emin64 <= e /\ Zpos m < 2 ^ 53 /\ (emin64 < e -> 2 ^ 52 <= Zpos m).
Proof.
  unfold valid_binary, bounded, canonical_mantissa, fexp. intros H.
  apply andb_prop in H as [H _]. apply Z.eqb_eq in H.
  pose proof (digits2_pos_bounds m) as [Hlo Hhi].
  unfold emin64, SpecFloat.emin, prec, emax in *.
  assert (Hd : Zpos (digits2_pos m) <= 53) by lia.
  repeat split; [lia| |].
  - eapply Z.lt_le_trans; [exact Hhi|]. apply Z.pow_le_mono_r; lia.
  - intros He. replace (Zpos (digits2_pos m)) with 53 in Hlo by lia. exact Hlo.
Qed.


Lemma SFdiff_sign sx mx ex sy my ey :
  valid_binary (S754_finite sx mx ex) = true ->
  valid_binary (S754_finite sy my ey) = true ->
  (SFdiff sx mx ex sy my ey < 0 <->
   SFltb (S754_finite sx mx ex) (S754_finite sy my ey) = true).
Proof.
  intros Vx Vy.
  apply valid_finite_facts in Vx as (Hex & Hmx & Hnx).
  apply valid_finite_facts in Vy as (Hey & Hmy & Hny).
  unfold SFdiff, SFltb, SFcompare.
  destruct (shl_align_spec mx ex (Z.min ex ey) ltac:(lia)) as [-> _].
  destruct (shl_align_spec my ey (Z.min ex ey) ltac:(lia)) as [-> _].
  assert (Px : 0 < 2 ^ (ex - Z.min ex ey)) by (apply Z.pow_pos_nonneg; lia).
  assert (Py : 0 < 2 ^ (ey - Z.min ex ey)) by (apply Z.pow_pos_nonneg; lia).
  rewrite Pos.compare_cont_spec; simpl Pos.switch_Eq.
  destruct (Z.compare_spec ex ey) as [E|E|E].
  - subst ey. rewrite Z.min_id, Z.sub_diag in *. rewrite Z.pow_0_r, !Z.mul_1_r.
    destruct sx, sy; destruct (Pos.compare_spec mx my); cbv [cond_Zopp CompOpp];
      split; intros; try lia; try discriminate; try reflexivity.
  - assert (Hy : 2 ^ 52 <= Zpos my) by (apply Hny; lia).
    replace (Z.min ex ey) with ex in * by lia. rewrite Z.sub_diag, Z.pow_0_r, Z.mul_1_r in *.
    assert (P2 : 2 <= 2 ^ (ey - ex)).
    { change 2 with (2 ^ 1) at 1. apply Z.pow_le_mono_r; lia. }
    assert (Hbig : 2 ^ 53 <= Zpos my * 2 ^ (ey - ex)).
    { change (2 ^ 53) with (2 ^ 52 * 2). apply Z.mul_le_mono_nonneg; lia. }
    destruct sx, sy; cbv [cond_Zopp CompOpp];
      split; intros; try lia; try discriminate; try reflexivity.
  - assert (Hx : 2 ^ 52 <= Zpos mx) by (apply Hnx; lia).
    replace (Z.min ex ey) with ey in * by lia. rewrite Z.sub_diag, Z.pow_0_r, Z.mul_1_r in *.
    assert (P2 : 2 <= 2 ^ (ex - ey)).
    { change 2 with (2 ^ 1) at 1. apply Z.pow_le_mono_r; lia. }
    assert (Hbig : 2 ^ 53 <= Zpos mx * 2 ^ (ex - ey)).
    { change (2 ^ 53) with (2 ^ 52 * 2). apply Z.mul_le_mono_nonneg; lia. }
    destruct sx, sy; cbv [cond_Zopp CompOpp];
      split; intros; try lia; try discriminate; try reflexivity.
Qed.

Lemma SFltb_zero_signed x : SFsigned true x -> SFltb x (S754_zero false) = true.
Proof. destruct x as [| | |s m e]; simpl; try tauto; intros ->; reflexivity. Qed.

Lemma SFltb_zero_weak x : SFweak false x -> SFltb x (S754_zero false) = false.
Proof. destruct x as [s|s| |s m e]; simpl; try tauto; intros ->; reflexivity. Qed.

Lemma SFsub_ltb_zero a b :
  valid_binary a = true -> valid_binary b = true ->
  SFltb (SFsub prec emax a b) (S754_zero false) = SFltb a b.
Proof.
  intros Va Vb.
  destruct a as [sx|sx| |sx mx ex], b as [sy|sy| |sy my ey];
    try (repeat match goal with s : bool |- _ => destruct s end; reflexivity).
  pose proof (SFdiff_sign sx mx ex sy my ey Va Vb) as Hs.
  pose proof (valid_finite_facts _ _ _ Va) as (Hex & _).
  pose proof (valid_finite_facts _ _ _ Vb) as (Hey & _).
  unfold SFsub. fold (SFdiff sx mx ex sy my ey).
  cbv zeta. unfold binary_normalize.
  destruct (SFdiff sx mx ex sy my ey) as [|d|d] eqn:Ed.
  - destruct (SFltb (S754_finite sx mx ex) (S754_finite sy my ey)); [|reflexivity].
    destruct Hs as [_ Hs]. specialize (Hs eq_refl). lia.
  - rewrite SFltb_zero_weak by apply binary_round_weak.
    destruct (SFltb (S754_finite sx mx ex) (S754_finite sy my ey)); [|reflexivity].
    destruct Hs as [_ Hs]. specialize (Hs eq_refl). lia.
  - rewrite SFltb_zero_signed by (apply binary_round_signed; lia).
    symmetry. apply Hs. lia.
Qed.

(** [a - b < 0] exactly when [a < b]: a difference rounds to a number of
    its own sign, and never to zero unless it is zero. *)
Lemma sub_ltb_zero (x y : float) : (x - y <? 0)%float = (x <? y)%float.
Proof.
  rewrite !ltb_spec, sub_spec. apply SFsub_ltb_zero; apply Prim2SF_valid.
Qed.

(** ** Operations that keep a number a number *)

Lemma SFweak_not_nan s x : SFweak s x -> x <> S754_nan.
Proof. intros H E. subst x. exact H. Qed.

Lemma mul_1000_not_NaN (x : float) : isNaN x = false -> isNaN (x * 1000)%float = false.
Proof.
  rewrite !isNaN_false_iff, mul_spec. intros Hx.
  change (Prim2SF 1000) with (S754_finite false 8796093022208000 (-43)).
  destruct (Prim2SF x) as [sx|sx| |sx mx ex]; try discriminate; try congruence.
  unfold SF64mul, SFmul. eapply SFweak_not_nan. apply binary_round_aux_weak. lia.
Qed.

Lemma of_uint63_not_NaN n : Prim2SF (of_uint63 n) <> S754_nan.
Proof.
  rewrite of_uint63_spec. unfold binary_normalize.
  destruct (Uint63Axioms.to_Z n); try discriminate;
    eapply SFweak_not_nan; apply binary_round_weak.
Qed.

Lemma Math_round_not_NaN (x : float) : isNaN x = false -> isNaN (Math_round x) = false.
Proof.
  intros Hx. unfold Math_round.
  destruct (Prim2SF x) as [sx|sx| |sx mx ex] eqn:E; try exact Hx.
  destruct (0 <=? ex); [exact Hx|].
  cbv zeta.
  destruct ((cond_Zopp sx (Z.pos mx) * 2 + 2 ^ (- ex)) / 2 ^ (1 - ex)) as [|n|n].
  - destruct sx; reflexivity.
  - apply isNaN_false_iff, of_uint63_not_NaN.
  - apply isNaN_false_iff. rewrite opp_spec.
    pose proof (of_uint63_not_NaN (Uint63Axioms.of_Z (- Z.neg n))) as H.
    destruct (Prim2SF (of_uint63 (Uint63Axioms.of_Z (- Z.neg n)))); try discriminate.
    congruence.
Qed.

(** ** NaN is absorbing *)

Lemma sub_nan_l (x : float) : (nan - x)%float = nan.
Proof. apply Prim2SF_inj. rewrite sub_spec. reflexivity. Qed.

Lemma mul_nan_l (x : float) : (nan * x)%float = nan.
Proof. apply Prim2SF_inj. rewrite mul_spec. reflexivity. Qed.

Lemma mul_nan_r (x : float) : (x * nan)%float = nan.
Proof.
  apply Prim2SF_inj. rewrite mul_spec. change (Prim2SF nan) with S754_nan.
  destruct (Prim2SF x); reflexivity.
Qed.

Lemma div_nan_l (x : float) : (nan / x)%float = nan.
Proof. apply Prim2SF_inj. rewrite div_spec. reflexivity. Qed.

Lemma add_nan_l (x : float) : (nan + x)%float = nan.
Proof. apply Prim2SF_inj. rewrite add_spec. reflexivity. Qed.

Lemma add_nan_r (x : float) : (x + nan)%float = nan.
Proof.
  apply Prim2SF_inj. rewrite add_spec. change (Prim2SF nan) with S754_nan.
  destruct (Prim2SF x); reflexivity.
Qed.

Lemma leb_nan_l (x : float) : (nan <=? x)%float = false.
Proof. rewrite leb_spec. reflexivity. Qed.

Lemma leb_nan_r (x : float) : (x <=? nan)%float = false.
Proof.
  rewrite leb_spec. change (Prim2SF nan) with S754_nan. unfold SFleb.
  rewrite SFcompare_nan_r. reflexivity.
Qed.

End FloatFacts.

(* ================================================================== *)
(** * Reasoning about effects and loops *)
(* ================================================================== *)

Section EffFacts.

Lemma bind_ok {A B : Type} (m : Eff A) (f : A -> Eff B) t b t' :
  bind m f t = (Ok b, t') ->
  exists a t1, m t = (Ok a, t1) /\ f a t1 = (Ok b, t').
Proof.
  unfold bind. destruct (m t) as [[a|e] t1]; intros H; [|discriminate].
  exists a, t1. split; [reflexivity | exact H].
Qed.

Lemma lift_ok {A : Type} (o : Outcome A) t a t1 :
  lift o t = (Ok a, t1) -> o = Ok a /\ t1 = t.
Proof. unfold lift. intros H. inversion H. split; reflexivity. Qed.

Lemma ret_ok {A : Type} (x : A) t a t1 :
  ret x t = (Ok a, t1) -> a = x /\ t1 = t.
Proof. unfold ret. intros H. inversion H. split; reflexivity. Qed.

Lemma bind_lift {A B : Type} (o : Outcome A) (f : A -> Eff B) a t :
  o = Ok a -> bind (lift o) f t = f a t.
Proof. intros ->. reflexivity. Qed.

(** A loop preserves an invariant that may mention the elements still to
    be visited. *)
Lemma forEach_invariant {A S : Type} (body : A -> S -> Eff S) (P : list A -> S -> Prop) :
  (forall a rest s t s' t',
      P (a :: rest) s -> body a s t = (Ok s', t') -> P rest s') ->
  forall l s t s' t',
    P l s -> forEach l body s t = (Ok s', t') -> P [] s'.
Proof.
  intros Hstep. induction l as [|a rest IH]; intros s t s' t' HP H.
  - apply ret_ok in H as [-> _]. exact HP.
  - simpl in H. apply bind_ok in H as (s1 & t1 & H1 & H2).
    eapply IH; [|exact H2]. eapply Hstep; eassumption.
Qed.

Lemma forEach_app {A S : Type} (body : A -> S -> Eff S) (l1 l2 : list A) s t :
  forEach (l1 ++ l2) body s t =
  bind (forEach l1 body s) (forEach l2 body) t.
Proof.
  revert s t. induction l1 as [|a l1 IH]; intros s t; simpl.
  - reflexivity.
  - unfold bind. destruct (body a s t) as [[s1|e] t1]; [|reflexivity].
    rewrite IH. reflexivity.
Qed.

End EffFacts.

(** Inverts a successful run of a sequence of [bind]s over [lift]ed reads. *)
Ltac eff_step H :=
  let x := fresh "x" in
  let t := fresh "t" in
  let E := fresh "E" in
  apply bind_ok in H as (x & t & E & H);
  first [ apply lift_ok in E as [E ->] | idtac ].

(* ================================================================== *)
(** * Reading values *)
(* ================================================================== *)

Section ValueFacts.

Lemma getProp_valueAt v k x path :
  getProp v k = Ok x -> valueAt (k :: path) v = valueAt path x.
Proof.
  destruct v; simpl; try discriminate;
    try (intros H; inversion H; subst; unfold valueAt; simpl;
         destruct path; reflexivity).
  unfold valueAt; simpl. destruct (lookup k fields) as [y|]; intros H; inversion H; subst.
  - reflexivity.
  - destruct path; reflexivity.
Qed.

Lemma destructure_valueAt v k x path :
  destructure v k = Ok x -> valueAt (k :: path) v = valueAt path x.
Proof.
  destruct v; cbn [destructure]; try discriminate; intros H;
    exact (getProp_valueAt _ _ _ path H).
Qed.

End ValueFacts.

(* ================================================================== *)
(** * The search loop *)
(* ================================================================== *)

Section SearchFacts.
Context {host : Host}.


(** A document either leaves the results as they are or appends one
    result, which carries the document's id and passed the distance test. *)
Lemma processDoc_ok db location doc providers t ps t' :
  processDoc db location doc providers t = (Ok ps, t') ->
  ps = providers \/
  exists r, ps = providers ++ [r] /\ id r = docId doc /\ acceptedAt location r.
Proof.
  unfold processDoc. intros H.
  do 2 eff_step H.
  destruct (ToBoolean x0); [|apply ret_ok in H as [-> _]; left; reflexivity].
  do 9 eff_step H.
  match type of H with context [if ?b then _ else _] => destruct b eqn:Hd end;
    [|apply ret_ok in H as [-> _]; left; reflexivity].
  do 12 eff_step H.
  apply ret_ok in H as [-> _]. right. eexists. split; [reflexivity|].
  split; [reflexivity|].
  rewrite E1 in E19. inversion E19; subst x19.
  rewrite E5 in E7. inversion E7; subst x7.
  unfold acceptedAt, declaredRadius; cbn [workingPreferences distance].
  rewrite (getProp_valueAt _ _ _ [] E3), (getProp_valueAt _ _ _ [] E4).
  rewrite (getProp_valueAt _ _ _ ["coordinates"; "latitude"] E2).
  rewrite (getProp_valueAt _ _ _ ["coordinates"; "longitude"] E2).
  rewrite (getProp_valueAt _ _ _ ["radius"] E2).
  rewrite (getProp_valueAt _ _ _ ["latitude"] E5), (getProp_valueAt _ _ _ ["longitude"] E5).
  rewrite (getProp_valueAt _ _ _ [] E6), (getProp_valueAt _ _ _ [] E8).
  rewrite (getProp_valueAt _ _ _ [] E9).
  split; [exact Hd | reflexivity].
Qed.

(** The results of one prefix: every new result passed the test. *)
Lemma forEach_processDoc_accepted db location docs providers t ps t' :
  Forall (acceptedAt location) providers ->
  forEach docs (processDoc db location) providers t = (Ok ps, t') ->
  Forall (acceptedAt location) ps.
Proof.
  intros HP H.
  refine (forEach_invariant (processDoc db location)
            (fun _ acc => Forall (acceptedAt location) acc) _ docs providers t ps t' HP H).
  intros a rest s t0 s' t0' Hs Hrun.
  apply processDoc_ok in Hrun as [->|(r & -> & _ & Hr)]; [exact Hs|].
  apply Forall_app. split; [exact Hs | constructor; [exact Hr | constructor]].
Qed.

Lemma processPrefix_accepted db serviceType location geohashPrefix providers t ps t' :
  Forall (acceptedAt location) providers ->
  processPrefix db serviceType location geohashPrefix providers t = (Ok ps, t') ->
  Forall (acceptedAt location) ps.
Proof.
  intros HP H. unfold processPrefix, queryProviders in H.
  eff_step H. inversion E; subst x.
  eapply forEach_processDoc_accepted; eassumption.
Qed.

Lemma forEach_processPrefix_accepted db serviceType location prefixes providers t ps t' :
  Forall (acceptedAt location) providers ->
  forEach prefixes (processPrefix db serviceType location) providers t = (Ok ps, t') ->
  Forall (acceptedAt location) ps.
Proof.
  intros HP H.
  refine (forEach_invariant (processPrefix db serviceType location)
            (fun _ acc => Forall (acceptedAt location) acc) _ prefixes providers t ps t' HP H).
  intros a rest s t0 s' t0' Hs Hrun.
  eapply processPrefix_accepted; eassumption.
Qed.

End SearchFacts.

(* ================================================================== *)
(** * Sorting by distance *)
(* ================================================================== *)

Section SortFacts.

Lemma insertSorted_perm {A : Type} (cmp : A -> A -> float) x l :
  Permutation (insertSorted cmp x l) (x :: l).
Proof.
  induction l as [|y rest IH]; simpl.
  - reflexivity.
  - destruct (cmp y x <? 0)%float.
    + rewrite IH. apply perm_swap.
    + reflexivity.
Qed.

(** The sort rearranges the array and nothing else. *)
Lemma Array_sort_perm {A : Type} (cmp : A -> A -> float) l :
  Permutation (Array_sort cmp l) l.
Proof.
  induction l as [|x rest IH]; simpl.
  - reflexivity.
  - rewrite insertSorted_perm. constructor. exact IH.
Qed.


Lemma distanceLe_trans a b c : distanceLe a b -> distanceLe b c -> distanceLe a c.
Proof. unfold distanceLe. apply leb_trans. Qed.

Lemma insertSorted_sorted x l :
  hasDistance x -> Forall hasDistance l ->
  StronglySorted distanceLe l ->
  StronglySorted distanceLe (insertSorted byDistance x l).
Proof.
  intros Hx Hl Hs. induction Hs as [|y rest Hs IH Hy]; simpl.
  - repeat constructor.
  - inversion Hl as [|? ? Hny Hrest]; subst.
    unfold byDistance at 1. rewrite sub_ltb_zero.
    destruct (distance y <? distance x)%float eqn:Hlt.
    + constructor; [apply IH; assumption|].
      rewrite insertSorted_perm. constructor; [|exact Hy].
      apply ltb_leb. exact Hlt.
    + assert (Hxy : distanceLe x y) by (apply leb_of_not_ltb; assumption).
      constructor; [constructor; assumption|].
      constructor; [exact Hxy|].
      eapply Forall_impl; [|exact Hy]. intros z Hz. eapply distanceLe_trans; eassumption.
Qed.

(** Results whose distances are numbers come out in non-decreasing order. *)
Lemma Array_sort_byDistance_sorted l :
  Forall hasDistance l -> StronglySorted distanceLe (Array_sort byDistance l).
Proof.
  induction l as [|x rest IH]; intros H; simpl.
  - constructor.
  - inversion H; subst. apply insertSorted_sorted; auto.
    rewrite Array_sort_perm. assumption.
Qed.

End SortFacts.

(* ================================================================== *)
(** * Properties of searchServiceProviders *)
(* ================================================================== *)

Section SearchProperties.
Context {host : Host}.

(** A search that returns went through every step of the [try] block. *)
Lemma search_ok db data results trace :
  runSearch db data = (Ok results, trace) ->
  exists serviceType location latitude longitude prefixes providers,
    destructure data "serviceType" = Ok serviceType /\
    destructure data "location" = Ok location /\
    requestInvalid serviceType location = Ok false /\
    getProp location "latitude" = Ok latitude /\
    getProp location "longitude" = Ok longitude /\
    getGeohashPrefixesForSearch (ToNumber latitude) (ToNumber longitude) searchRadius
      = Ok prefixes /\
    forEach prefixes (processPrefix db serviceType location) [] [] = (Ok providers, trace) /\
    results = Array_sort byDistance providers.
Proof.
  unfold runSearch, searchServiceProviders, try_catch.
  destruct (searchBody db data []) as [[r|e] t1] eqn:Hb; [|discriminate].
  intros H. inversion H; subst r t1. clear H.
  unfold searchBody in Hb.
  do 3 eff_step Hb.
  destruct x1; [discriminate|].
  do 4 eff_step Hb.
  apply ret_ok in Hb as [-> ->].
  exists x, x0, x1, x2, x3, x4. repeat split; assumption.
Qed.

Lemma acceptedAt_request data location r :
  destructure data "location" = Ok location ->
  acceptedAt location r ->
  withinServiceArea data r /\ distance r = distanceMeters data r.
Proof.
  intros Hl. unfold acceptedAt, withinServiceArea, distanceMeters, haversineKm.
  rewrite (destructure_valueAt _ _ _ ["latitude"] Hl).
  rewrite (destructure_valueAt _ _ _ ["longitude"] Hl).
  cbv zeta. tauto.
Qed.

(** Every result of a search that returns passed the refinement step, and
    carries the rounded distance. *)
Lemma search_results_accepted db data results trace :
  runSearch db data = (Ok results, trace) ->
  Forall (fun r => withinServiceArea data r /\ distance r = distanceMeters data r) results.
Proof.
  intros H.
  apply search_ok in H
    as (serviceType & location & latitude & longitude & prefixes & providers
        & _ & Hloc & _ & _ & _ & _ & Hrun & ->).
  apply forEach_processPrefix_accepted in Hrun; [|constructor].
  rewrite Array_sort_perm.
  eapply Forall_impl; [|exact Hrun].
  intros r Hr. eapply acceptedAt_request; eassumption.
Qed.

Lemma accepted_hasDistance data r :
  withinServiceArea data r /\ distance r = distanceMeters data r -> hasDistance r.
Proof.
  intros [Hw Hd]. unfold hasDistance. rewrite Hd. unfold distanceMeters.
  apply Math_round_not_NaN, mul_1000_not_NaN.
  apply leb_not_NaN in Hw as [Hn _]. exact Hn.
Qed.

(** C1. Filter correctness: every provider record in the result of
    [searchServiceProviders] lies within its own declared service radius:
    the Haversine distance (Earth radius 6371 km) from the query coordinate
    to the provider's service-area center, in kilometers, is at most
    [serviceArea.radius / 1000].  No record failing the test is returned. *)
Theorem search_results_within_declared_radius db data results trace r :
  runSearch db data = (Ok results, trace) ->
  In r results ->
  (haversineKm data r <=? declaredRadius r / 1000)%float = true.
Proof.
  intros H Hin.
  pose proof (search_results_accepted db data results trace H) as HF.
  rewrite Forall_forall in HF. apply (HF r Hin).
Qed.

(** C6. Sort invariant: the result of a search that returns normally is
    non-decreasing in [distance] (every result is at most every later one),
    and each result's [distance] is the Haversine distance in kilometers
    multiplied by 1000 and rounded to the nearest integer. *)
Theorem search_results_sorted_by_distance db data results trace :
  runSearch db data = (Ok results, trace) ->
  StronglySorted distanceLe results /\
  Forall (fun r => distance r = Math_round (haversineKm data r * 1000)%float) results.
Proof.
  intros H.
  pose proof (search_results_accepted db data results trace H) as HF.
  split.
  - apply search_ok in H
      as (serviceType & location & latitude & longitude & prefixes & providers
          & _ & _ & _ & _ & _ & _ & _ & Hres).
    subst results. apply Array_sort_byDistance_sorted.
    rewrite Array_sort_perm in HF.
    eapply Forall_impl; [|exact HF]. intros r. apply accepted_hasDistance.
  - eapply Forall_impl; [|exact HF]. intros r [_ Hd]. exact Hd.
Qed.

End SearchProperties.

(* ================================================================== *)
(** * One range query, distinct results *)
(* ================================================================== *)

Section DistinctResults.
Context {host : Host}.

(** The 50 km radius selects precision 1, and a single one-character prefix. *)
Lemma searchRadius_precision : getGeohashPrecisionForRadius searchRadius = 1.
Proof. reflexivity. Qed.

Lemma searchRadius_single_prefix latitude longitude prefixes :
  getGeohashPrefixesForSearch latitude longitude searchRadius = Ok prefixes ->
  exists g, generateGeohash latitude longitude (Some 1) = Ok g /\ prefixes = [g].
Proof.
  unfold getGeohashPrefixesForSearch. rewrite searchRadius_precision.
  change (searchRadius <=? 1000)%float with false. cbv iota.
  change (Math_max 1 (1 - 2)) with 1.
  destruct (generateGeohash latitude longitude (Some 1)) as [g|e]; simpl; [|discriminate].
  intros H. inversion H. exists g. split; reflexivity.
Qed.

Lemma NoDup_map_filter {A B : Type} (f : A -> B) (p : A -> bool) l :
  NoDup (map f l) -> NoDup (map f (filter p l)).
Proof.
  induction l as [|a l IH]; simpl; intros H.
  - constructor.
  - inversion H as [|? ? Hnotin Hnd]; subst.
    destruct (p a); simpl; [constructor|]; auto.
    intros Hin. apply Hnotin. apply in_map_iff in Hin as (x & Hx & Hin).
    apply filter_In in Hin as [Hin _]. apply in_map_iff. exists x. split; assumption.
Qed.

(** Visiting documents with distinct ids yields results with distinct ids. *)
Lemma forEach_processDoc_distinct db location docs providers t ps t' :
  NoDup (map id providers ++ map docId docs) ->
  forEach docs (processDoc db location) providers t = (Ok ps, t') ->
  NoDup (map id ps).
Proof.
  intros HP H.
  pose proof (forEach_invariant (processDoc db location)
                (fun rest acc => NoDup (map id acc ++ map docId rest))) as Hinv.
  specialize (Hinv
    ltac:(intros a rest s t0 s' t0' Hs Hrun;
          apply processDoc_ok in Hrun as [->|(r & -> & Hid & _)];
          [ simpl in Hs; apply NoDup_remove_1 in Hs; exact Hs
          | rewrite map_app, <- app_assoc; simpl; rewrite Hid; exact Hs ])
    docs providers t ps t' HP H).
  simpl in Hinv. rewrite app_nil_r in Hinv. exact Hinv.
Qed.

(** C4. The result list contains each provider identity (document id) at
    most once, whatever the request and the contents of the store, whose
    documents have distinct ids: the 50 km scan radius always selects a
    single prefix, so that no record is returned by two range queries. *)
Theorem search_results_distinct_providers db data results trace :
  NoDup (map docId (serviceProviders db)) ->
  runSearch db data = (Ok results, trace) ->
  NoDup (map id results).
Proof.
  intros Hdb H.
  apply search_ok in H
    as (serviceType & location & latitude & longitude & prefixes & providers
        & _ & _ & _ & _ & _ & Hpre & Hrun & ->).
  apply searchRadius_single_prefix in Hpre as (g & _ & ->).
  simpl in Hrun. eff_step Hrun. apply ret_ok in Hrun as [-> _].
  unfold processPrefix, queryProviders in E. eff_step E. inversion E0; subst x0.
  apply forEach_processDoc_distinct in E;
    [|simpl; apply NoDup_map_filter; exact Hdb].
  eapply Permutation_NoDup; [|exact E].
  apply Permutation_map. symmetry. apply Array_sort_perm.
Qed.

End DistinctResults.

(* ================================================================== *)
(** * Request validation *)
(* ================================================================== *)

Section Validation.
Context {host : Host}.

Lemma truthy_getProp v k : ToBoolean v = true -> getProp v k = Ok (valueAt [k] v).
Proof.
  destruct v; simpl; try discriminate; intros _; try reflexivity.
  unfold valueAt; simpl. destruct (lookup k fields); reflexivity.
Qed.

Lemma object_destructure fields k :
  destructure (VObj fields) k = Ok (valueAt [k] (VObj fields)).
Proof. apply (truthy_getProp (VObj fields) k). reflexivity. Qed.

Lemma valueAt_object_cons fields k path :
  valueAt (k :: path) (VObj fields) = valueAt path (valueAt [k] (VObj fields)).
Proof. apply getProp_valueAt. apply (truthy_getProp (VObj fields) k). reflexivity. Qed.

(** The validation condition holds as soon as one of the four tests does. *)
Lemma requestInvalid_true serviceType location :
  ToBoolean serviceType = false \/
  ToBoolean (valueAt ["latitude"] location) = false \/
  ToBoolean (valueAt ["longitude"] location) = false ->
  requestInvalid serviceType location = Ok true.
Proof.
  intros H. unfold requestInvalid.
  destruct (ToBoolean serviceType) eqn:Hs; [|reflexivity].
  destruct (ToBoolean location) eqn:Hl; [|reflexivity].
  rewrite !(truthy_getProp location _ Hl). cbn [negb obind].
  destruct (ToBoolean (valueAt ["latitude"] location)) eqn:Hlat; [|reflexivity].
  destruct (ToBoolean (valueAt ["longitude"] location)) eqn:Hlon; [|reflexivity].
  destruct H as [H|[H|H]]; discriminate.
Qed.

(** A request that fails validation is rejected before any read. *)
Lemma invalid_request_rejected db fields :
  requestInvalid (valueAt ["serviceType"] (VObj fields)) (valueAt ["location"] (VObj fields))
    = Ok true ->
  runSearch db (VObj fields) = (Err invalidRequest, []).
Proof.
  intros H.
  unfold runSearch, searchServiceProviders, try_catch, searchBody.
  unfold bind, lift. rewrite !object_destructure, H. reflexivity.
Qed.

End Validation.



Section ValidationClaims.
Context {host : Host}.

(** C7. [searchServiceProviders] fails with the invalid-request error and
    performs no store read whenever the requested service category is empty
    or absent, or the query location lacks either coordinate. *)
Theorem search_rejects_missing_input db fields :
  categoryEmptyOrAbsent (VObj fields) \/
  lacksCoordinate "latitude" (VObj fields) \/
  lacksCoordinate "longitude" (VObj fields) ->
  runSearch db (VObj fields) = (Err invalidRequest, []).
Proof.
  intros H. apply invalid_request_rejected, requestInvalid_true.
  unfold categoryEmptyOrAbsent, lacksCoordinate in H.
  rewrite (valueAt_object_cons fields "location" ["latitude"]) in H.
  rewrite (valueAt_object_cons fields "location" ["longitude"]) in H.
  destruct H as [[H|[H|H]]|[[H|H]|[H|H]]]; rewrite H; auto.
Qed.

(** C10. A query whose latitude or longitude is the number 0, or whose
    service type is the empty string, is rejected as invalid (and no store
    read is performed), although 0 is a coordinate in range: the validation
    tests the truthiness of the fields, not their presence. *)
Theorem search_rejects_zero_coordinate db fields :
  zeroCoordinate "latitude" (VObj fields) \/
  zeroCoordinate "longitude" (VObj fields) \/
  valueAt ["serviceType"] (VObj fields) = VStr "" ->
  runSearch db (VObj fields) = (Err invalidRequest, []).
Proof.
  intros H. apply invalid_request_rejected, requestInvalid_true.
  unfold zeroCoordinate in H.
  rewrite (valueAt_object_cons fields "location" ["latitude"]) in H.
  rewrite (valueAt_object_cons fields "location" ["longitude"]) in H.
  destruct H as [(x & H & Hx)|[(x & H & Hx)|H]]; rewrite H; simpl; rewrite ?Hx; auto.
Qed.

(** A call without a payload fails in the destructuring, before the
    validation and before any read; the error is the TypeError's, rethrown. *)
Lemma search_fails_without_payload db :
  runSearch db VNull =
    (Err (MkError
       "Failed to search service providers: Cannot destructure property 'serviceType' of 'request.data' as it is null."),
     []).
Proof. reflexivity. Qed.

End ValidationClaims.

(* ================================================================== *)
(** * Records with a malformed service area *)
(* ================================================================== *)


Lemma getProp_lookup fields k v :
  lookup k fields = Some v -> getProp (VObj fields) k = Ok v.
Proof. intros H. simpl. rewrite H. reflexivity. Qed.

Lemma getProp_missing fields k :
  lookup k fields = None -> getProp (VObj fields) k = Ok VUndefined.
Proof. intros H. simpl. rewrite H. reflexivity. Qed.

Lemma optChain_valueAt v k : optChain v k = Ok (valueAt [k] v).
Proof.
  destruct v; try reflexivity.
  apply (truthy_getProp (VObj fields) k). reflexivity.
Qed.

(** Runs the next [lift]ed read of a computation, its outcome proved by [tac]. *)
Ltac read_by tac := erewrite bind_lift by tac; cbv beta.


Section MalformedArea.
Context {host : Host}.
Hypothesis host_nan : propagatesNaN host.

Lemma calculateDistance_nan_latitude lat1 lon1 lon2 :
  calculateDistance lat1 lon1 nan lon2 = nan.
Proof.
  destruct host_nan as [Hsin Hatan]. unfold calculateDistance. cbv zeta.
  rewrite sub_nan_l, mul_nan_l, div_nan_l, Hsin, mul_nan_l, add_nan_l.
  change (Math_sqrt nan) with nan.
  rewrite Hatan. reflexivity.
Qed.

Lemma calculateDistance_nan_longitude lat1 lon1 lat2 :
  calculateDistance lat1 lon1 lat2 nan = nan.
Proof.
  destruct host_nan as [Hsin Hatan]. unfold calculateDistance. cbv zeta.
  rewrite sub_nan_l, mul_nan_l, div_nan_l, Hsin, !mul_nan_r, add_nan_r.
  change (Math_sqrt nan) with nan.
  rewrite Hatan. reflexivity.
Qed.

(** The loop body leaves the results and the trace as they are. *)
Lemma processDoc_skips db location d providers t :
  ToBoolean location = true ->
  SkippedArea d ->
  processDoc db location d providers t = (Ok providers, t).
Proof.
  intros Hloc Hd. unfold processDoc, docData.
  destruct Hd as [Hguard | wp area c Hwp Harea Hc Hlat | wp area c Hwp Harea Hc Hlon
                 | wp area c Hwp Harea Hc Hrad].
  - unfold docData in Hguard.
    rewrite (valueAt_object_cons (snd d) "workingPreferences" ["serviceArea"]) in Hguard.
    read_by ltac:(apply (truthy_getProp (VObj (snd d))); reflexivity).
    read_by ltac:(apply optChain_valueAt).
    rewrite Hguard. reflexivity.
  - read_by ltac:(apply getProp_lookup; exact Hwp).
    read_by ltac:(apply (getProp_lookup wp); exact Harea).
    cbn [ToBoolean]; cbv iota.
    read_by ltac:(apply getProp_lookup; exact Hwp).
    read_by ltac:(apply getProp_lookup; exact Harea).
    do 2 read_by ltac:(apply truthy_getProp; exact Hloc).
    read_by ltac:(apply getProp_lookup; exact Hc).
    read_by ltac:(apply getProp_missing; exact Hlat).
    read_by ltac:(apply getProp_lookup; exact Hc).
    do 2 read_by ltac:(apply (truthy_getProp (VObj _)); reflexivity).
    cbn [ToNumber]. rewrite calculateDistance_nan_latitude, leb_nan_l. reflexivity.
  - read_by ltac:(apply getProp_lookup; exact Hwp).
    read_by ltac:(apply (getProp_lookup wp); exact Harea).
    cbn [ToBoolean]; cbv iota.
    read_by ltac:(apply getProp_lookup; exact Hwp).
    read_by ltac:(apply getProp_lookup; exact Harea).
    do 2 read_by ltac:(apply truthy_getProp; exact Hloc).
    read_by ltac:(apply getProp_lookup; exact Hc).
    read_by ltac:(apply (truthy_getProp (VObj _)); reflexivity).
    read_by ltac:(apply getProp_lookup; exact Hc).
    read_by ltac:(apply getProp_missing; exact Hlon).
    read_by ltac:(apply (truthy_getProp (VObj _)); reflexivity).
    cbn [ToNumber]. rewrite calculateDistance_nan_longitude, leb_nan_l. reflexivity.
  - read_by ltac:(apply getProp_lookup; exact Hwp).
    read_by ltac:(apply (getProp_lookup wp); exact Harea).
    cbn [ToBoolean]; cbv iota.
    read_by ltac:(apply getProp_lookup; exact Hwp).
    read_by ltac:(apply getProp_lookup; exact Harea).
    do 2 read_by ltac:(apply truthy_getProp; exact Hloc).
    read_by ltac:(apply getProp_lookup; exact Hc).
    read_by ltac:(apply (truthy_getProp (VObj _)); reflexivity).
    read_by ltac:(apply getProp_lookup; exact Hc).
    read_by ltac:(apply (truthy_getProp (VObj _)); reflexivity).
    read_by ltac:(apply getProp_missing; exact Hrad).
    cbn [ToNumber]. rewrite div_nan_l, leb_nan_r. reflexivity.
Qed.

End MalformedArea.

Section SkippedRecords.
Context {host : Host}.

Lemma forEach_ext {A S : Type} (body1 body2 : A -> S -> Eff S) l :
  (forall a s t, body1 a s t = body2 a s t) ->
  forall s t, forEach l body1 s t = forEach l body2 s t.
Proof.
  intros Hext. induction l as [|a rest IH]; intros s t; simpl.
  - reflexivity.
  - unfold bind. rewrite Hext. destruct (body2 a s t) as [[s1|e] t1]; [apply IH | reflexivity].
Qed.

(** An element the body passes over can be dropped from the list. *)
Lemma forEach_skip {A S : Type} (body : A -> S -> Eff S) l1 d l2 :
  (forall s t, body d s t = (Ok s, t)) ->
  forall s t, forEach (l1 ++ d :: l2) body s t = forEach (l1 ++ l2) body s t.
Proof.
  intros Hskip s t. rewrite !forEach_app. unfold bind.
  destruct (forEach l1 body s t) as [[s1|e] t1]; [|reflexivity].
  simpl. unfold bind. rewrite Hskip. reflexivity.
Qed.

Lemma requestInvalid_false serviceType location :
  requestInvalid serviceType location = Ok false -> ToBoolean location = true.
Proof.
  unfold requestInvalid.
  destruct (ToBoolean serviceType); [|discriminate].
  destruct (ToBoolean location); [reflexivity | discriminate].
Qed.

Lemma processPrefix_skips users pre d post serviceType location g providers t :
  propagatesNaN host ->
  SkippedArea d ->
  ToBoolean location = true ->
  processPrefix {| serviceProviders := pre ++ d :: post; users := users |}
    serviceType location g providers t =
  processPrefix {| serviceProviders := pre ++ post; users := users |}
    serviceType location g providers t.
Proof.
  intros Hnan Hd Hloc. unfold processPrefix, queryProviders, bind, tell, ret.
  cbn [serviceProviders]. rewrite !filter_app. cbn [filter].
  destruct (matchesQuery ("services." ++ ToString serviceType) g d).
  - rewrite forEach_skip; [reflexivity|].
    intros s t0. apply processDoc_skips; assumption.
  - reflexivity.
Qed.

Lemma searchBody_skips users pre d post data t :
  propagatesNaN host ->
  SkippedArea d ->
  searchBody {| serviceProviders := pre ++ d :: post; users := users |} data t =
  searchBody {| serviceProviders := pre ++ post; users := users |} data t.
Proof.
  intros Hnan Hd. unfold searchBody, bind, lift.
  destruct (destructure data "serviceType") as [serviceType|]; [|reflexivity].
  destruct (destructure data "location") as [location|]; [|reflexivity].
  destruct (requestInvalid serviceType location) as [[|]|] eqn:Hinv; try reflexivity.
  apply requestInvalid_false in Hinv.
  destruct (getProp location "latitude") as [latitude|]; [|reflexivity].
  destruct (getProp location "longitude") as [longitude|]; [|reflexivity].
  destruct (getGeohashPrefixesForSearch (ToNumber latitude) (ToNumber longitude) searchRadius)
    as [prefixes|]; [|reflexivity].
  rewrite (forEach_ext
             (processPrefix {| serviceProviders := pre ++ d :: post; users := users |}
                serviceType location)
             (processPrefix {| serviceProviders := pre ++ post; users := users |}
                serviceType location)).
  - reflexivity.
  - intros g s t0. apply processPrefix_skips; assumption.
Qed.

(** C3 (amended). A record whose service area is missing, or has its
    coordinates object but lacks the latitude, the longitude or the radius,
    is passed over silently: the search has the outcome (results or error)
    and performs the reads it has on the store without that record. *)
Theorem search_skips_malformed_area users pre d post data :
  propagatesNaN host ->
  SkippedArea d ->
  runSearch {| serviceProviders := pre ++ d :: post; users := users |} data =
  runSearch {| serviceProviders := pre ++ post; users := users |} data.
Proof.
  intros Hnan Hd. unfold runSearch, searchServiceProviders, try_catch.
  rewrite (searchBody_skips users pre d post data [] Hnan Hd). reflexivity.
Qed.

End SkippedRecords.

(* ================================================================== *)
(** * The geohash helpers *)
(* ================================================================== *)

Section NGeohashFacts.

Lemma string_length_append (s1 s2 : string) :
  String.length (s1 ++ s2)%string = (String.length s1 + String.length s2)%nat.
Proof. induction s1 as [|c s1 IH]; simpl; [reflexivity | rewrite IH; reflexivity]. Qed.

Lemma base32Char_length h :
  0 <= h < 32 -> String.length (NGeohash.base32Char h) = 1%nat.
Proof.
  intros Hh. unfold NGeohash.base32Char.
  assert (Hk : (Z.to_nat h < 32)%nat) by lia.
  revert Hk. generalize (Z.to_nat h) as k. intros k Hk.
  do 32 (destruct k as [|k]; [reflexivity|]). lia.
Qed.

(** One iteration appends one bit; the fifth bit of a group appends the
    group's character. *)
Lemma encodeStep_spec latitude longitude st :
  exists b, (b = 0 \/ b = 1) /\
    let st' := NGeohash.encodeStep latitude longitude st in
    if NGeohash.bits st + 1 =? 5
    then NGeohash.chars st' =
           (NGeohash.chars st ++ NGeohash.base32Char (NGeohash.hash_value st * 2 + b))%string
         /\ NGeohash.bits st' = 0 /\ NGeohash.hash_value st' = 0
    else NGeohash.chars st' = NGeohash.chars st
         /\ NGeohash.bits st' = NGeohash.bits st + 1
         /\ NGeohash.hash_value st' = NGeohash.hash_value st * 2 + b.
Proof.
  unfold NGeohash.encodeStep.
  destruct (Z.even (NGeohash.bitsTotal st));
    match goal with |- context [gtb ?a ?b] => destruct (gtb a b) end;
    cbn [NGeohash.bits NGeohash.chars NGeohash.hash_value NGeohash.bitsTotal];
    [exists 1 | exists 0 | exists 1 | exists 0];
    (split; [lia|]); cbv zeta;
    destruct (NGeohash.bits st + 1 =? 5);
    cbn [NGeohash.bits NGeohash.chars NGeohash.hash_value]; repeat split.
Qed.

Lemma encodeLoop_length latitude longitude n fuel :
  forall st,
    0 <= NGeohash.bits st < 5 ->
    0 <= NGeohash.hash_value st < 2 ^ NGeohash.bits st ->
    Z.of_nat fuel + NGeohash.bits st
      = 5 * (n - Z.of_nat (String.length (NGeohash.chars st))) ->
    String.length (NGeohash.chars (NGeohash.encodeLoop fuel latitude longitude n st))
      = Z.to_nat n.
Proof.
  induction fuel as [|fuel IH]; intros st Hb Hh Hf.
  - simpl. lia.
  - cbn [NGeohash.encodeLoop].
    assert (Hlt : (Z.of_nat (String.length (NGeohash.chars st)) <? n) = true)
      by (apply Z.ltb_lt; lia).
    rewrite Hlt.
    destruct (encodeStep_spec latitude longitude st) as (b & Hbit & Hstep).
    cbv zeta in Hstep.
    assert (Hpow : 2 ^ (NGeohash.bits st + 1) = 2 * 2 ^ NGeohash.bits st)
      by (rewrite Z.pow_add_r by lia; lia).
    destruct (NGeohash.bits st + 1 =? 5) eqn:E5.
    + apply Z.eqb_eq in E5. destruct Hstep as (Hc & Hb' & Hh').
      apply IH.
      * rewrite Hb'. lia.
      * rewrite Hb', Hh'. simpl. lia.
      * rewrite Hb', Hc, string_length_append, base32Char_length.
        -- lia.
        -- replace 32 with (2 ^ (NGeohash.bits st + 1)) by (rewrite E5; reflexivity). lia.
    + apply Z.eqb_neq in E5. destruct Hstep as (Hc & Hb' & Hh').
      apply IH.
      * rewrite Hb'. lia.
      * rewrite Hb', Hh'. lia.
      * rewrite Hb', Hc. lia.
Qed.

(** The encoder returns a string of [numberOfChars] characters (none when
    the count is not positive), whatever the coordinates. *)
Lemma encode_length latitude longitude numberOfChars :
  String.length (NGeohash.encode latitude longitude numberOfChars) = Z.to_nat numberOfChars.
Proof.
  unfold NGeohash.encode. destruct (Z.le_gt_cases numberOfChars 0) as [Hn|Hn].
  - replace (Z.to_nat numberOfChars) with 0%nat by lia. reflexivity.
  - apply encodeLoop_length; cbn [NGeohash.encodeStart NGeohash.bits NGeohash.hash_value
                                   NGeohash.chars String.length]; lia.
Qed.

(** The fuel is enough: when [encodeLoop] stops, the loop condition
    [chars.length < numberOfChars] is false. *)
Lemma encode_loop_exits latitude longitude numberOfChars :
  (Z.of_nat (String.length (NGeohash.encode latitude longitude numberOfChars))
     <? numberOfChars) = false.
Proof. rewrite encode_length. apply Z.ltb_ge. lia. Qed.

End NGeohashFacts.

Section GeohashClaims.
Context {host : Host}.

(** C5. When the encoder answers, [getGeohashPrefixesForSearch] returns, for
    a radius of at most 1000 m, exactly the base geohash at the precision of
    the radius followed by its neighbours (so the base geohash is a member;
    nine prefixes when the package returns the 8 neighbours), and otherwise
    the single geohash at precision [max(1, precision - 2)]. *)
Theorem prefixes_for_search_cases latitude longitude radiusMeters base :
  generateGeohash latitude longitude (Some (getGeohashPrecisionForRadius radiusMeters))
    = Ok base ->
  getGeohashPrefixesForSearch latitude longitude radiusMeters =
    (if (radiusMeters <=? 1000)%float
     then obind (getGeohashNeighbors base) (fun neighbours => Ok (base :: neighbours))
     else obind (generateGeohash latitude longitude
                   (Some (Z.max 1 (getGeohashPrecisionForRadius radiusMeters - 2))))
            (fun prefixGeohash => Ok [prefixGeohash]))
  /\ (forall prefixes,
        (radiusMeters <=? 1000)%float = true ->
        getGeohashPrefixesForSearch latitude longitude radiusMeters = Ok prefixes ->
        In base prefixes /\
        exists neighbours,
          getGeohashNeighbors base = Ok neighbours /\ prefixes = base :: neighbours /\
          (List.length neighbours = 8%nat -> List.length prefixes = 9%nat)).
Proof.
  intros Hbase. unfold getGeohashPrefixesForSearch. rewrite Hbase. cbn [obind].
  split; [reflexivity|].
  intros prefixes Hsmall. rewrite Hsmall.
  destruct (getGeohashNeighbors base) as [neighbours|e]; cbn [obind]; [|discriminate].
  intros H. inversion H; subst prefixes. split; [left; reflexivity|].
  exists neighbours. repeat split. intros Hlen. simpl. rewrite Hlen. reflexivity.
Qed.

End GeohashClaims.

(** C8. [getGeohashPrecisionForRadius] is monotone: a larger radius never
    gets a larger precision. *)
Theorem precision_monotone (r1 r2 : float) :
  (r1 <=? r2)%float = true ->
  getGeohashPrecisionForRadius r2 <= getGeohashPrecisionForRadius r1.
Proof.
  intros H. unfold getGeohashPrecisionForRadius, geb.
  repeat match goal with
  | |- context [(?c <=? r1)%float] =>
      let E := fresh in
      destruct (c <=? r1)%float eqn:E; [ rewrite (leb_trans _ _ _ E H) | ]
  end;
  repeat match goal with |- context [if ?b then _ else _] => destruct b end; lia.
Qed.

(** C2. The table of [getGeohashPrecisionForRadius] is not the table of the
    specification: at 50 km, the radius the search passes, the code answers
    precision 1 where the table in meters answers 4.  The thresholds of the
    code are the kilometer figures of its own comment, compared with a
    radius in meters. *)
Theorem precision_table_off_by_unit :
  getGeohashPrecisionForRadius 50000 = 1 /\ spec_precisionForRadius 50000 = 4.
Proof. split; reflexivity. Qed.

(** C9 (as stated, refuted). A latitude of 91 degrees is encoded, not
    rejected. *)
Lemma generateGeohash_encodes_out_of_range :
  @generateGeohash SampleHost.host 91 0 (Some 7) = Ok "gzzzzzz".
Proof. vm_compute. reflexivity. Qed.

(** C9 (amended). [generateGeohash] is a function of its arguments that
    checks no range: on every latitude, longitude and precision its outcome
    is the outcome of [ngeohash.encode] (at precision 7 when none is given),
    and with the package's encoder that is a geohash of as many characters
    as the precision, for coordinates in range or out of range alike. *)
Theorem generateGeohash_delegates :
  (forall (host : Host) latitude longitude precision,
      generateGeohash latitude longitude precision =
      ngeohash_encode latitude longitude
        (match precision with Some p => p | None => 7 end)) /\
  (forall latitude longitude precision,
      exists g,
        @generateGeohash SampleHost.host latitude longitude (Some precision) = Ok g /\
        String.length g = Z.to_nat precision).
Proof.
  split.
  - reflexivity.
  - intros latitude longitude precision. eexists. split; [reflexivity|].
    apply encode_length.
Qed.

(* ================================================================== *)
(** * The properties on the sample data *)
(* ================================================================== *)

Section Scenarios.

Local Existing Instance SampleHost.host.

(** Scenario A, and the order of the results: the provider queried at its
    own position is returned at distance 0, before the provider 8 km away,
    which the range query returns first. *)
Lemma sample_run : runSearch Sample.db Sample.atLagos = (Ok Sample.results, Sample.trace).
Proof. vm_compute. reflexivity. Qed.

(** Scenario B: queried 10 km to the north, the Lagos provider (5 km
    radius) is excluded although its geohash matches the prefix; the
    provider 18 km away (20 km radius) is returned. *)
Example sample_out_of_radius :
  fst (runSearch Sample.db (Sample.request (VStr "classic-cleaning") (VNum 6.6144) (VNum 3.3792)))
  = Ok [Sample.resultOf Sample.island "Tunde" "Ade" "0801" 17907].
Proof. vm_compute. reflexivity. Qed.

(** Known values of the package's encoder and neighbour function. *)
Example ngeohash_known_values :
  NGeohash.encode 37.8324 112.5584 9 = "ww8p1r4t8" /\
  NGeohash.neighbors "dqcjq" =
    ["dqcjw"; "dqcjx"; "dqcjr"; "dqcjp"; "dqcjn"; "dqcjj"; "dqcjm"; "dqcjt"].
Proof. split; vm_compute; reflexivity. Qed.

(** [Math.round] rounds ties towards +Infinity and keeps the sign of zero. *)
Example Math_round_values :
  map Math_round [2.5; -2.5; 0.49999999999999994; -0.2; 9134.2595760890983; infinity]%float
  = [3; -2; 0; -0; 9134; infinity]%float.
Proof. vm_compute. reflexivity. Qed.

(** The loop itself does not deduplicate: run over two overlapping prefixes
    it returns a provider twice.  The search never does so, its radius
    selecting one prefix. *)
Example overlapping_prefixes_repeat_a_provider :
  fst (forEach ["s"; "s1"]
         (processPrefix Sample.db (VStr "classic-cleaning")
            (valueAt ["location"] Sample.atLagos)) [] [])
  = Ok [Sample.islandResult; Sample.lagosResult; Sample.islandResult; Sample.lagosResult].
Proof. vm_compute. reflexivity. Qed.

Lemma sample_host_propagatesNaN : propagatesNaN SampleHost.host.
Proof. split; [vm_compute; reflexivity | intros y; reflexivity]. Qed.

(** C1, on the sample data: the provider 8 km away is within its 20 km. *)
Lemma within_declared_radius_witness :
  (haversineKm Sample.atLagos Sample.islandResult
     <=? declaredRadius Sample.islandResult / 1000)%float = true.
Proof.
  apply (search_results_within_declared_radius
           Sample.db Sample.atLagos Sample.results Sample.trace Sample.islandResult).
  - exact sample_run.
  - right. left. reflexivity.
Defined.

(** C6, on the sample data. *)
Lemma sorted_by_distance_witness :
  StronglySorted distanceLe Sample.results /\
  Forall (fun r => distance r = Math_round (haversineKm Sample.atLagos r * 1000)%float)
    Sample.results.
Proof.
  apply (search_results_sorted_by_distance Sample.db Sample.atLagos Sample.results Sample.trace).
  exact sample_run.
Defined.

(** C4, on the sample data. *)
Lemma distinct_providers_witness : NoDup (map id Sample.results).
Proof.
  apply (search_results_distinct_providers Sample.db Sample.atLagos Sample.results Sample.trace).
  - repeat constructor; simpl; intuition discriminate.
  - exact sample_run.
Defined.

(** C7, on a request without a service type. *)
Lemma rejects_missing_input_witness :
  runSearch Sample.db Sample.withoutServiceType = (Err invalidRequest, []).
Proof.
  apply (search_rejects_missing_input Sample.db
           [ ("location", VObj [("latitude", VNum 6.5244); ("longitude", VNum 3.3792)]) ]).
  left. left. reflexivity.
Defined.

(** C10, on a request on the equator. *)
Lemma rejects_zero_coordinate_witness :
  runSearch Sample.db Sample.onEquator = (Err invalidRequest, []).
Proof.
  apply (search_rejects_zero_coordinate Sample.db
           [ ("serviceType", VStr "classic-cleaning");
             ("location", VObj [("latitude", VNum 0); ("longitude", VNum 3.3792)]) ]).
  left. exists 0%float. split; reflexivity.
Defined.

(** C3 (as stated, refuted).  A provider that the range query returns
    (active, offering the service, its geohash under the prefix) and whose
    service area has no [coordinates] makes the whole search fail: the two
    providers that match are not returned. *)
Lemma search_fails_on_area_without_coordinates :
  matchesQuery "services.classic-cleaning" "s" Sample.noCoordinates = true /\
  runSearch Sample.dbWithNoCoordinates Sample.atLagos =
    (Err (MkError
       "Failed to search service providers: Cannot read properties of undefined (reading 'latitude')"),
     [OpQueryProviders "services.classic-cleaning" "s"; OpGetUser "island"]) /\
  fst (runSearch Sample.db Sample.atLagos) = Ok Sample.results.
Proof. repeat split; vm_compute; reflexivity. Qed.

(** C3 (amended), on the sample data: the record without a latitude
    changes nothing. *)
Lemma skips_malformed_area_witness :
  runSearch Sample.dbWithNoLatitude Sample.atLagos = runSearch Sample.db Sample.atLagos.
Proof.
  apply (search_skips_malformed_area Sample.userDocs [Sample.island; Sample.lagos]
           Sample.noLatitude [] Sample.atLagos).
  - exact sample_host_propagatesNaN.
  - apply (NoLatitude Sample.noLatitude
             [("serviceArea",
               VObj [ ("coordinates", VObj [("longitude", VNum 3.3792)]);
                      ("radius", VNum 5000); ("geohash", VStr "s14mhgs") ])]
             [ ("coordinates", VObj [("longitude", VNum 3.3792)]);
               ("radius", VNum 5000); ("geohash", VStr "s14mhgs") ]
             [("longitude", VNum 3.3792)]); reflexivity.
Defined.

(** C5, on a 500 m radius around Lagos. *)
Lemma prefixes_for_search_witness :
  getGeohashPrefixesForSearch 6.5244 3.3792 500 = Ok ("s14" :: NGeohash.neighbors "s14").
Proof.
  rewrite (proj1 (@prefixes_for_search_cases SampleHost.host 6.5244 3.3792 500 "s14"
                    ltac:(vm_compute; reflexivity))).
  reflexivity.
Defined.

(** C8, between 500 m and 50 km. *)
Lemma precision_monotone_witness :
  getGeohashPrecisionForRadius 50000 <= getGeohashPrecisionForRadius 500.
Proof. apply (precision_monotone 500 50000). reflexivity. Defined.

End Scenarios.
